(** * pyFileRen: the file-discovery and name-generation core of pyFileRen.py

    A shallow embedding of the "Select folders" and "run" branches of
    [FileRenamerFrame.onButtonPressDown], of [FileRenamerFrame.addFolders]
    and of [FileRenamerFrame.updateFileList], together with the Python string
    and [posixpath] primitives they call (the program was written for macOS).

    Python strings are lists of characters.  What the program reads from its
    environment is an explicit parameter: the results of [glob] and [isdir],
    the effect of [os.rename], the clock.  The widgets that only display are
    left out.

    The definitions come first: the string primitives, the planner, the
    folder collector, the "run" button and the log file, then small inputs
    for examples.  The facts follow, grouped by the part of the program they
    are about. *)

From Stdlib Require Import List Ascii String Arith Bool Lia.
From Stdlib Require DecimalString.
Import ListNotations.

Open Scope char_scope.
Open Scope list_scope.

(** Python [str] values. *)
Definition str := list ascii.

(** String literals: [$"abc"] is the Python string ['abc']. *)
Notation "$ s" := (list_ascii_of_string s%string) (at level 1, format "$ s").

(* ------------------------------------------------------------------ *)
(** ** Python string primitives *)

Module Py.

(** [s.startswith(p)] *)
Fixpoint startswith (p s : str) : bool :=
  match p, s with
  | [], _ => true
  | _ :: _, [] => false
  | a :: p', b :: s' => Ascii.eqb a b && startswith p' s'
  end.

(** [s.endswith(p)] *)
Definition endswith (p s : str) : bool := startswith (rev p) (rev s).

(** [x in s] for strings: [x] occurs in [s] as a substring. *)
Fixpoint contains (x s : str) : bool :=
  match s with
  | [] => startswith x []
  | _ :: t => startswith x s || contains x t
  end.

(** [a == b] on strings. *)
Fixpoint eqb (a b : str) : bool :=
  match a, b with
  | [], [] => true
  | x :: a', y :: b' => Ascii.eqb x y && eqb a' b'
  | _, _ => false
  end.

(** [s.replace(old, new)] for a non-empty [old]: occurrences are found
    left to right and do not overlap.  [skip] counts the characters of a
    match that are still to be dropped. *)
Fixpoint replace_from (old new : str) (skip : nat) (s : str) : str :=
  match s with
  | [] => []
  | c :: t =>
      match skip with
      | S k => replace_from old new k t
      | O => if startswith old s
             then new ++ replace_from old new (List.length old - 1) t
             else c :: replace_from old new 0 t
      end
  end.

(** [s.replace(old, new)].  With an empty [old], Python puts [new] before
    every character and at the end. *)
Definition replace (old new s : str) : str :=
  match old with
  | [] => new ++ flat_map (fun c => c :: new) s
  | _ :: _ => replace_from old new 0 s
  end.

(** [s.split(sep)] for a one-character separator; the result is never
    empty. *)
Fixpoint split (sep : ascii) (s : str) : list str :=
  match s with
  | [] => [[]]
  | c :: t =>
      if Ascii.eqb c sep then [] :: split sep t
      else match split sep t with
           | seg :: segs => (c :: seg) :: segs
           | [] => [[c]]
           end
  end.

(** [l[0]] and [l[-1]] on a list of strings that is known to be non-empty
    (the result of [split]). *)
Definition first (l : list str) : str := hd [] l.
Definition last (l : list str) : str := List.last l [].

(** [str(n)] for a non-negative integer. *)
Definition str_of_nat (n : nat) : str :=
  list_ascii_of_string (DecimalString.NilEmpty.string_of_uint (Nat.to_uint n)).

(** [s.zfill(width)] for a string that carries no sign, as [str(n)] does for
    [n >= 0]. *)
Definition zfill (width : nat) (s : str) : str :=
  repeat "0" (width - List.length s) ++ s.

(** [posixpath.basename(p)]: [p[p.rfind('/')+1:]]. *)
Fixpoint basename (p : str) : str :=
  match p with
  | [] => []
  | c :: t =>
      if existsb (Ascii.eqb "/") t then basename t
      else if Ascii.eqb c "/" then t else p
  end.

(** [posixpath.join(a, b)] *)
Definition join (a b : str) : str :=
  if startswith ["/"] b then b
  else match a with
       | [] => b
       | _ => if endswith ["/"] a then a ++ b else a ++ "/" :: b
       end.

End Py.

(* ------------------------------------------------------------------ *)
(** ** The clock: [get_time_stamp] *)

Record datetime := {
  year : nat; month : nat; day : nat;
  hour : nat; minute : nat; second : nat
}.

(** ['%.Ni' % v]: at least [N] digits, zero padded. *)
Definition fmt_i (digits v : nat) : str := Py.zfill digits (Py.str_of_nat v).

(** [get_time_stamp()] with [flag_ms = False], applied to the value that
    [datetime.now()] returned. *)
Definition get_time_stamp (t : datetime) : str :=
  fmt_i 4 (year t) ++ "_" :: fmt_i 2 (month t) ++ "_" :: fmt_i 2 (day t) ++ "_" ::
  fmt_i 2 (hour t) ++ "_" :: fmt_i 2 (minute t) ++ "_" :: fmt_i 2 (second t).

(* ------------------------------------------------------------------ *)
(** ** [updateFileList]: the rename planner *)

(** The keys of [self.newFFO], in the order of that list. *)
Inductive token := oFileN | folderN | incNum | incNumInFolder | ts.

Definition newFFO : list token := [oFileN; folderN; incNum; incNumInFolder; ts].

Definition key (k : token) : str :=
  match k with
  | oFileN => $"oFileN"
  | folderN => $"folderN"
  | incNum => $"incNum"
  | incNumInFolder => $"incNumInFolder"
  | ts => $"ts"
  end.

(** [tStr = "[%s]"%(k)] *)
Definition tStr (k : token) : str := "[" :: key k ++ ["]"].

(** [k.startswith("incNum")] *)
Definition is_incNum (k : token) : bool := Py.startswith $"incNum" (key k).

(** What the inner loop reads but does not change while it runs over the
    tokens of one entry. *)
Record entryCtx := {
  folderPath : str;
  prevFolderP : str;
  oFN : str;
  zeroPadN : nat;
  now : datetime
}.

(** What the inner loop updates: the name under construction and the
    counter.  [substituted] is a ghost trace: the replacement string of each
    token that was substituted, in order. *)
Record expansion := {
  newFN : str;
  incN : nat;
  substituted : list (token * str)
}.

(** The [folderN] replacement: last non-empty component of [folderPath]. *)
Definition folderName (fpath : str) : str :=
  Py.last ([] :: filter (fun seg => negb (Py.eqb seg [])) (Py.split "/" fpath)).

(** The replacement string of a token that is not a counter. *)
Definition rStr_of (c : entryCtx) (k : token) : str :=
  match k with
  | oFileN => oFN c
  | folderN => folderName (folderPath c)
  | ts => get_time_stamp (now c)
  | _ => []
  end.

(** One iteration of [for k in self.newFFO]. *)
Definition token_step (c : entryCtx) (e : expansion) (k : token) : expansion :=
  if negb (Py.contains (tStr k) (newFN e)) then e
  else
    let n1 :=
      match k with
      | incNumInFolder =>
          if negb (Py.eqb (folderPath c) (prevFolderP c)) then 1 else incN e
      | _ => incN e
      end in
    let rStr :=
      match k with
      | oFileN => oFN c
      | folderN => folderName (folderPath c)
      | incNum | incNumInFolder => Py.zfill (zeroPadN c) (Py.str_of_nat n1)
      | ts => get_time_stamp (now c)
      end in
    let n2 := if is_incNum k then n1 + 1 else n1 in
    {| newFN := Py.replace (tStr k) rStr (newFN e);
       incN := n2;
       substituted := substituted e ++ [(k, rStr)] |}.

(** The planner's inputs that stay fixed during one pass. *)
Record planInput := {
  newForm : str;                 (* the rename template *)
  folder2moveRenFile : str;      (* destination override, empty when unset *)
  clock : nat -> datetime        (* what [datetime.now()] returns while entry [i] is expanded *)
}.

(** The loop-carried state of [for i, fp in enumerate(self.fileList)]. *)
Record planState := {
  st_incN : nat;
  st_prevFolderP : str;
  nFileList : list str;                          (* [self.nFileList] *)
  trace : list (list (token * str))              (* ghost: substitutions per entry *)
}.

Definition init_state : planState :=
  {| st_incN := 1; st_prevFolderP := []; nFileList := []; trace := [] |}.

(** [bn], [folderPath], and the split of [bn] at its dots. *)
Definition bn_of (fp : str) : str := Py.basename fp.
Definition folderPath_of (fp : str) : str := Py.replace (bn_of fp) [] fp.
Definition oFN_of (fp : str) : str := Py.first (Py.split "." (bn_of fp)).
Definition oFExt_of (fp : str) : str := Py.last (Py.split "." (bn_of fp)).

(** The context of entry [i]. *)
Definition ctx_of (inp : planInput) (pad : nat) (i : nat) (fp : str)
    (st : planState) : entryCtx :=
  {| folderPath := folderPath_of fp;
     prevFolderP := if Nat.eqb i 0 then folderPath_of fp else st_prevFolderP st;
     oFN := oFN_of fp;
     zeroPadN := pad;
     now := clock inp i |}.

(** The expansion of the template for entry [i]. *)
Definition expand (inp : planInput) (pad : nat) (i : nat) (fp : str)
    (st : planState) : expansion :=
  fold_left (token_step (ctx_of inp pad i fp st)) newFFO
    {| newFN := newForm inp; incN := st_incN st; substituted := [] |}.

(** [newFP] for an expanded name. *)
Definition newFP_of (inp : planInput) (fp : str) (name : str) : str :=
  let file := name ++ "." :: oFExt_of fp in
  if negb (Py.eqb (folder2moveRenFile inp) [])
  then Py.join (folder2moveRenFile inp) file
  else Py.join (folderPath_of fp) file.

(** One iteration of the outer loop. *)
Definition entry_step (inp : planInput) (pad : nat) (i : nat) (fp : str)
    (st : planState) : planState :=
  let e := expand inp pad i fp st in
  {| st_incN := incN e;
     st_prevFolderP := folderPath_of fp;
     nFileList := nFileList st ++ [newFP_of inp fp (newFN e)];
     trace := trace st ++ [substituted e] |}.

(** The outer loop from entry [i] on. *)
Fixpoint plan_from (inp : planInput) (pad : nat) (i : nat) (fileList : list str)
    (st : planState) : planState :=
  match fileList with
  | [] => st
  | fp :: rest => plan_from inp pad (S i) rest (entry_step inp pad i fp st)
  end.

(** The second half of [updateFileList]: from [self.fileList] to
    [self.nFileList]. *)
Definition plan (inp : planInput) (fileList : list str) : planState :=
  plan_from inp (List.length (Py.str_of_nat (List.length fileList))) 0 fileList init_state.

Definition token_eqb (a b : token) : bool :=
  match a, b with
  | oFileN, oFileN | folderN, folderN | incNum, incNum
  | incNumInFolder, incNumInFolder | ts, ts => true
  | _, _ => false
  end.

(** The replacement strings substituted for token [k] in one entry. *)
Definition values_in (k : token) (subs : list (token * str)) : list str :=
  map snd (filter (fun p => token_eqb (fst p) k) subs).

(** The replacement strings substituted for token [k], in plan order. *)
Definition values_of (k : token) (st : planState) : list str :=
  flat_map (values_in k) (trace st).

(** The name under construction of an entry when the turn of the two
    counter tokens comes: the template with [[oFileN]] and then [[folderN]]
    substituted. *)
Definition name_at_counters (inp : planInput) (fp : str) : str :=
  Py.replace (tStr folderN) (folderName (folderPath_of fp))
    (Py.replace (tStr oFileN) (oFN_of fp) (newForm inp)).

(** The numbering within folders: an entry whose folder is the folder of the
    entry before it gets the number that follows, any other entry gets 1.
    [prev] and [n] are the folder of the entry before and the number that
    follows its number. *)
Fixpoint folder_counts (prev : str) (n : nat) (folders : list str) : list nat :=
  match folders with
  | [] => []
  | f :: rest =>
      let v := if Py.eqb f prev then n else 1 in
      v :: folder_counts f (v + 1) rest
  end.

(** A counter value as it is substituted. *)
Definition padded (pad n : nat) : str := Py.zfill pad (Py.str_of_nat n).

(* ------------------------------------------------------------------ *)
(** ** Paths *)

(** The containing folder of a path in the usual sense: the path up to and
    including its last ['/'] (what is left of [p] when [basename p] is cut
    off its end).  The planner does not compute the folder this way, see
    [folderPath_of]; this definition is what the planner's folder is compared
    with. *)
Fixpoint containing_folder (p : str) : str :=
  match p with
  | [] => []
  | c :: t =>
      if existsb (Ascii.eqb "/") t then c :: containing_folder t
      else if Ascii.eqb c "/" then [c] else []
  end.

(** An entry whose base name occurs only at the end of its path. *)
Definition name_only_at_end (fp : str) : Prop :=
  Py.contains (bn_of fp) (containing_folder fp) = false.

(* ------------------------------------------------------------------ *)
(** ** [onButtonPressDown], "Select folders", and [addFolders] *)

(** The file system as the collector and the matcher see it: the results of
    [glob.glob] and of [os.path.isdir]. *)
Record fileSystem := {
  glob : str -> list str;
  isdir : str -> bool
}.

(** The removal of the disk name that [MultiDirDialog] puts in front of a
    path: [fp[fp.index("/"):]] when [fp.find("/") != -1]. *)
Fixpoint from_first_slash (fp : str) : str :=
  match fp with
  | [] => []
  | c :: t => if Ascii.eqb c "/" then fp else from_first_slash t
  end.

Definition strip_root (fp : str) : str :=
  if existsb (Ascii.eqb "/") fp then from_first_slash fp else fp.

(** [self.selectedFolders], and as a ghost the arguments of the nested calls
    [self.addFolders(fp)], in the order in which they were made. *)
Record collector := {
  selectedFolders : list str;
  recursed : list str
}.

Definition append_folder (s : collector) (fp : str) (nested : bool) : collector :=
  {| selectedFolders := selectedFolders s ++ [fp];
     recursed := if nested then recursed s ++ [fp] else recursed s |}.

(** [addFolders(dp)].  The recursion of the source has no bound of its own;
    [fuel] bounds its depth and [None] means that the bound was reached. *)
Fixpoint addFolders (fs : fileSystem) (fuel : nat) (dp : str) (s : collector)
    : option collector :=
  match fuel with
  | O => None
  | S fuel' =>
      fold_left
        (fun acc fp =>
           match acc with
           | None => None
           | Some s' =>
               if isdir fs fp
               then addFolders fs fuel' fp (append_folder s' fp true)
               else Some s'
           end)
        (glob fs (Py.join dp $"*")) (Some s)
  end.

(** The body of the loop of [addFolders]. *)
Definition child_step (fs : fileSystem) (fuel : nat) (acc : option collector) (fp : str)
    : option collector :=
  match acc with
  | None => None
  | Some s' =>
      if isdir fs fp
      then addFolders fs fuel fp (append_folder s' fp true)
      else Some s'
  end.

(** The body of the loop over the selected roots. *)
Definition root_step (fs : fileSystem) (fuel : nat) (acc : option collector) (dp : str)
    : option collector :=
  match acc with
  | None => None
  | Some s' => addFolders fs fuel dp (append_folder s' dp false)
  end.

(** The loop [for dp in folderL] that runs when "Include sub-folders" is
    checked. *)
Definition add_roots (fs : fileSystem) (fuel : nat) (folderL : list str)
    (s : collector) : option collector :=
  fold_left (root_step fs fuel) folderL (Some s).

(** The "Select folders" branch after the dialog returned [paths] with
    [wx.ID_OK]; [subFolders_chk] is the state of the check box. *)
Definition selectFolders (fs : fileSystem) (fuel : nat) (paths : list str)
    (subFolders_chk : bool) : option collector :=
  let sel := map strip_root paths in
  if subFolders_chk
  then add_roots fs fuel sel {| selectedFolders := []; recursed := [] |}
  else Some {| selectedFolders := sel; recursed := [] |}.

(** The first half of [updateFileList]: [self.fileList]. *)
Definition fileList_of (fs : fileSystem) (folders : list str) (fileForm : str)
    : list str :=
  flat_map (fun dp => glob fs (Py.join dp fileForm)) folders.

(** [updateFileList]. *)
Definition updateFileList (fs : fileSystem) (folders : list str)
    (fileForm : str) (inp : planInput) : list str * list str :=
  let fL := fileList_of fs folders fileForm in
  (fL, nFileList (plan inp fL)).

(** [glob._ishidden]: the name starts with a dot. *)
Definition ishidden (name : str) : bool := Py.startswith ["."] name.

(** A path is at or below [c] when it is [c] or continues [c] with a
    separator. *)
Definition at_or_below (c q : str) : Prop :=
  q = c \/ exists r, q = c ++ "/" :: r.

(** A path is strictly below the folder [dp] when it is at or below an
    entry of [dp]: [dp] joined with a non-empty name without separator. *)
Definition strictly_below (dp q : str) : Prop :=
  exists n, n <> [] /\ ~ In "/" n /\ at_or_below (Py.join dp n) q.

(** The listing of the folder [dp] is that of a tree: no entry is listed
    twice, and a listed folder is [dp] joined with a non-empty name without
    separator. *)
Definition listing_ok (fs : fileSystem) (dp : str) : Prop :=
  NoDup (glob fs (Py.join dp $"*")) /\
  forall c, In c (glob fs (Py.join dp $"*")) -> isdir fs c = true ->
    exists n, n <> [] /\ ~ In "/" n /\ c = Py.join dp n.

(** A root written without a separator at its end. *)
Definition plain_root (r : str) : Prop :=
  r <> [] /\ Py.endswith ["/"] r = false.

(** What may follow a path in a path at or below it. *)
Definition tail_ok (x : str) : Prop := x = [] \/ exists r, x = "/" :: r.

(* ------------------------------------------------------------------ *)
(** ** The log file and the "run" button *)

Definition nl : ascii := ascii_of_nat 10.

(** [logHeader] of [__init__]. *)
Definition logHeader : str :=
  $"Timestamp, Origianl file, Renamed file" ++ [nl] ++
  $"----------------------------------------" ++ [nl].

(** The content of the log file, [None] when [path.isfile(self.logFile)] is
    false. *)
Definition logfile := option str.

(** [writeFile(self.logFile, txt)] with the default mode ['a']. *)
Definition writeFile (log : logfile) (txt : str) : logfile :=
  match log with
  | None => Some txt
  | Some old => Some (old ++ txt)
  end.

(** The part of [__init__] that concerns the log file. *)
Definition init_log (log : logfile) : logfile :=
  match log with
  | None => writeFile log logHeader
  | Some _ => log
  end.

(** One log record: ["%s, %s, %s\n\n"%(get_time_stamp(), fp, newFP)]. *)
Definition log_record (t : datetime) (fp newFP : str) : str :=
  get_time_stamp t ++ $", " ++ fp ++ $", " ++ newFP ++ [nl; nl].

Section Executor.

(** The files that [os.rename] acts on.  [rename d src dst] is [None] when
    the call raises.  The log file is kept apart from them: a plan is
    taken not to rename the log file itself. *)
Variable disk : Type.
Variable rename : disk -> str -> str -> option disk.

(** What [datetime.now()] returns when the record of pair [i] is
    formatted. *)
Variable run_clock : nat -> datetime.

Record world := {
  files : disk;
  log : logfile
}.

(** The loop of the "run" button from pair [i] on.  The second component
    is [None] when an exception left the loop: [IndexError] from
    [self.nFileList[i]] or the error of [rename]. *)
Fixpoint run_loop (d : disk) (i : nat) (rest : list str) (nFL : list str)
    (msg msg4log : str) : disk * option (str * str) :=
  match rest with
  | [] => (d, Some (msg, msg4log))
  | fp :: rest' =>
      match nth_error nFL i with
      | None => (d, None)
      | Some newFP =>
          match rename d fp newFP with
          | None => (d, None)
          | Some d' =>
              run_loop d' (S i) rest' nFL
                (msg ++ newFP ++ [nl; nl])
                (msg4log ++ log_record (run_clock i) fp newFP)
          end
      end
  end.

(** The "run" button: the world afterwards, and the message shown, [None]
    when an exception ended the handler. *)
Definition run (w : world) (fileList nFL : list str) : world * option str :=
  match run_loop (files w) 0 fileList nFL ($"Renamed files -----" ++ [nl; nl]) [] with
  | (d, Some (msg, msg4log)) =>
      ({| files := d; log := writeFile (log w) msg4log |}, Some msg)
  | (d, None) => ({| files := d; log := log w |}, None)
  end.



End Executor.

Arguments files {disk}.
Arguments log {disk}.

(* ------------------------------------------------------------------ *)
(** ** Small inputs for examples *)

Definition epoch : datetime :=
  {| year := 2019; month := 9; day := 10; hour := 16; minute := 21; second := 56 |}.

(** A planner input without destination override, and one with. *)
Definition input (template : string) : planInput :=
  {| newForm := $template; folder2moveRenFile := []; clock := fun _ => epoch |}.

Definition input_to (template override : string) : planInput :=
  {| newForm := $template; folder2moveRenFile := $override; clock := fun _ => epoch |}.

(** Enough fuel for the roots [paths] on a file system whose folders have
    the depths [depth]. *)
Definition enough_fuel (depth : str -> nat) (paths : list str) : nat :=
  S (list_max (map depth (map strip_root paths))).

(** A small file system: [/tmp] holds the folder [a], the file [f.txt] and
    the hidden file [.rc], which only a pattern with a leading dot lists;
    [/tmp/a] holds two files. *)
Definition demo_fs : fileSystem :=
  {| glob := fun pat =>
       if Py.eqb pat $"/tmp/*" then [$"/tmp/a"; $"/tmp/f.txt"]
       else if Py.eqb pat $"/tmp/*.*" then [$"/tmp/f.txt"]
       else if Py.eqb pat $"/tmp/a/*" then [$"/tmp/a/x.txt"; $"/tmp/a/y.txt"]
       else if Py.eqb pat $"/tmp/a/*.*" then [$"/tmp/a/x.txt"; $"/tmp/a/y.txt"]
       else if Py.eqb pat $"/tmp/.*" then [$"/tmp/.rc"]
       else [];
     isdir := fun p =>
       Py.eqb p $"/tmp" || Py.eqb p $"/tmp/a" |}.

Definition demo_depth (dp : str) : nat :=
  if Py.eqb (Py.join dp $"*") $"/tmp/*" then 1 else 0.

(** A small disk: the set of the paths that exist; a rename fails when its
    source does not exist. *)
Definition demo_rename (d : list str) (src dst : str) : option (list str) :=
  if existsb (Py.eqb src) d
  then Some (dst :: filter (fun p => negb (Py.eqb src p)) d)
  else None.

Definition demo_world : world (list str) :=
  {| files := [$"/t/a.txt"; $"/t/b.txt"]; log := init_log None |}.

(** Four files in two folders. *)
Definition four_files : list str :=
  [$"/tmp/a/x.txt"; $"/tmp/a/y.txt"; $"/tmp/b/z.txt"; $"/tmp/b/w.txt"].

(* ------------------------------------------------------------------ *)
(** ** Notions for the facts on the collector *)

(** [q] is a folder that the listing of the folder [p] shows: one that
    [addFolders(p)] appends. *)
Definition child (fs : fileSystem) (p q : str) : Prop :=
  In q (glob fs (Py.join p $"*")) /\ isdir fs q = true.

(** Every element of [l] has a parent before it, in [base] or in [l]. *)
Definition parents_first (fs : fileSystem) (base l : list str) : Prop :=
  forall a1 q a2, l = a1 ++ q :: a2 ->
    exists p, In p (base ++ a1) /\ child fs p q.

(* ------------------------------------------------------------------ *)
(** ** The frame and its event handlers *)

Module PyMore.

(** [c.isspace()] for a character below 256. *)
Definition isspace (c : ascii) : bool :=
  let n := nat_of_ascii c in
  (Nat.leb 9 n && Nat.leb n 13) || (Nat.leb 28 n && Nat.leb n 32)
  || Nat.eqb n 133 || Nat.eqb n 160.

(** [s.lstrip()] *)
Fixpoint lstrip (s : str) : str :=
  match s with
  | [] => []
  | c :: t => if isspace c then lstrip t else s
  end.

(** [s.strip()] *)
Definition strip (s : str) : str := rev (lstrip (rev (lstrip s))).

End PyMore.

(** [self.newFFOD]: the descriptions of the tokens. *)
Definition newFFOD (k : token) : str :=
  match k with
  | oFileN => $"Original file-name"
  | folderN => $"Folder name"
  | incNum => $"Increasing Number (overall)"
  | incNumInFolder => $"Increasing Number (in each folder)"
  | ts => $"Timestamp"
  end.

(** The string of a token in the choice list: ["[%s], %s"%(k, self.newFFOD[k])]. *)
Definition option_string (k : token) : str := tStr k ++ $", " ++ newFFOD k.

(** [_choices] of [__init__]. *)
Definition choices : list str := [] :: map option_string newFFO.

(** The attributes of the frame that the handlers read and write, and the
    values of the widgets they read and write: the text controls
    [targetFN_txt], [newFN_txt] and [selFolder2move_txt], the check box
    [subFolders_chk], and whether the button and the text control of the
    destination folder are enabled.  The controls that only display
    ([selDir_txt], [selFile_txt]) are left out. *)
Record frame := {
  self_selectedFolders : list str;
  self_folder2moveRenFile : str;
  self_fileList : list str;
  self_nFileList : list str;
  targetFN_txt : str;
  newFN_txt : str;
  selFolder2move_txt : str;
  subFolders_chk : bool;
  selFolder2move_enabled : bool
}.

(** The frame as [__init__] leaves it. *)
Definition init_frame : frame :=
  {| self_selectedFolders := []; self_folder2moveRenFile := [];
     self_fileList := []; self_nFileList := [];
     targetFN_txt := $"*.*"; newFN_txt := tStr oFileN;
     selFolder2move_txt := []; subFolders_chk := false;
     selFolder2move_enabled := false |}.

Section Handlers.

Variable fs : fileSystem.
(** What [datetime.now()] returns during the call of [updateFileList] at
    hand. *)
Variable clk : nat -> datetime.

(** The inputs of the planner as [updateFileList] reads them. *)
Definition frame_input (st : frame) : planInput :=
  {| newForm := newFN_txt st;
     folder2moveRenFile := self_folder2moveRenFile st;
     clock := clk |}.

(** [self.updateFileList()] *)
Definition frame_updateFileList (st : frame) : frame :=
  let r := updateFileList fs (self_selectedFolders st) (targetFN_txt st)
             (frame_input st) in
  {| self_selectedFolders := self_selectedFolders st;
     self_folder2moveRenFile := self_folder2moveRenFile st;
     self_fileList := fst r;
     self_nFileList := snd r;
     targetFN_txt := targetFN_txt st;
     newFN_txt := newFN_txt st;
     selFolder2move_txt := selFolder2move_txt st;
     subFolders_chk := subFolders_chk st;
     selFolder2move_enabled := selFolder2move_enabled st |}.

(** [onButtonPressDown], "Select folders": [dlg] is [Some paths] when the
    dialog ended with [wx.ID_OK].  [None] as result: the bound on the depth
    of [addFolders] was reached. *)
Definition on_selectFolders (fuel : nat) (st : frame) (dlg : option (list str))
    : option frame :=
  match dlg with
  | None => Some st
  | Some paths =>
      match selectFolders fs fuel paths (subFolders_chk st) with
      | None => None
      | Some c =>
          Some (frame_updateFileList
                  {| self_selectedFolders := selectedFolders c;
                     self_folder2moveRenFile := self_folder2moveRenFile st;
                     self_fileList := self_fileList st;
                     self_nFileList := self_nFileList st;
                     targetFN_txt := targetFN_txt st;
                     newFN_txt := newFN_txt st;
                     selFolder2move_txt := selFolder2move_txt st;
                     subFolders_chk := subFolders_chk st;
                     selFolder2move_enabled := selFolder2move_enabled st |})
      end
  end.

(** [onButtonPressDown], [selFolder2move_btn]. *)
Definition on_selFolder2move (st : frame) (dlg : option str) : frame :=
  match dlg with
  | None => st
  | Some d =>
      frame_updateFileList
        {| self_selectedFolders := self_selectedFolders st;
           self_folder2moveRenFile := d;
           self_fileList := self_fileList st;
           self_nFileList := self_nFileList st;
           targetFN_txt := targetFN_txt st;
           newFN_txt := newFN_txt st;
           selFolder2move_txt := d;
           subFolders_chk := subFolders_chk st;
           selFolder2move_enabled := selFolder2move_enabled st |}
  end.

(** [onCheckBox] for [moveRenFiles_chk] with the new value of the box. *)
Definition onCheckBox (st : frame) (checked : bool) : frame :=
  if checked then
    {| self_selectedFolders := self_selectedFolders st;
       self_folder2moveRenFile := self_folder2moveRenFile st;
       self_fileList := self_fileList st;
       self_nFileList := self_nFileList st;
       targetFN_txt := targetFN_txt st;
       newFN_txt := newFN_txt st;
       selFolder2move_txt := selFolder2move_txt st;
       subFolders_chk := subFolders_chk st;
       selFolder2move_enabled := true |}
  else
    {| self_selectedFolders := self_selectedFolders st;
       self_folder2moveRenFile := [];
       self_fileList := self_fileList st;
       self_nFileList := self_nFileList st;
       targetFN_txt := targetFN_txt st;
       newFN_txt := newFN_txt st;
       selFolder2move_txt := [];
       subFolders_chk := subFolders_chk st;
       selFolder2move_enabled := false |}.

(** [onChoice] for [newFNOption_cho] with the chosen string. *)
Definition onChoice (st : frame) (chosenOStr : str) : frame :=
  if Py.eqb chosenOStr [] then st
  else
    let chosen := PyMore.strip (Py.first (Py.split "," chosenOStr)) in
    frame_updateFileList
      {| self_selectedFolders := self_selectedFolders st;
         self_folder2moveRenFile := self_folder2moveRenFile st;
         self_fileList := self_fileList st;
         self_nFileList := self_nFileList st;
         targetFN_txt := targetFN_txt st;
         newFN_txt := newFN_txt st ++ chosen;
         selFolder2move_txt := selFolder2move_txt st;
         subFolders_chk := subFolders_chk st;
         selFolder2move_enabled := selFolder2move_enabled st |}.

(** [onEnteredInTC] with the name of the text control. *)
Definition onEnteredInTC (st : frame) (objName : str) : frame :=
  if Py.eqb objName $"targetFN_txt" || Py.eqb objName $"newFN_txt"
  then frame_updateFileList st
  else st.

End Handlers.

(** [initList()] *)
Definition initList (st : frame) : frame :=
  {| self_selectedFolders := [];
     self_folder2moveRenFile := self_folder2moveRenFile st;
     self_fileList := [];
     self_nFileList := [];
     targetFN_txt := $"*.*";
     newFN_txt := tStr oFileN;
     selFolder2move_txt := selFolder2move_txt st;
     subFolders_chk := subFolders_chk st;
     selFolder2move_enabled := selFolder2move_enabled st |}.

(** [onButtonPressDown], [run_btn]: the world and the frame afterwards, and
    the message shown, [None] when an exception ended the handler. *)
Definition on_run (disk : Type) (rename : disk -> str -> str -> option disk)
    (run_clock : nat -> datetime) (w : world disk) (st : frame)
    : world disk * frame * option str :=
  match run disk rename run_clock w (self_fileList st) (self_nFileList st) with
  | (w', Some msg) => (w', initList st, Some msg)
  | (w', None) => (w', st, None)
  end.

(** What the user does without a handler being called: typing into the two
    text controls and toggling "Include sub-folders". *)
Definition set_targetFN_txt (st : frame) (v : str) : frame :=
  {| self_selectedFolders := self_selectedFolders st;
     self_folder2moveRenFile := self_folder2moveRenFile st;
     self_fileList := self_fileList st;
     self_nFileList := self_nFileList st;
     targetFN_txt := v;
     newFN_txt := newFN_txt st;
     selFolder2move_txt := selFolder2move_txt st;
     subFolders_chk := subFolders_chk st;
     selFolder2move_enabled := selFolder2move_enabled st |}.

Definition set_newFN_txt (st : frame) (v : str) : frame :=
  {| self_selectedFolders := self_selectedFolders st;
     self_folder2moveRenFile := self_folder2moveRenFile st;
     self_fileList := self_fileList st;
     self_nFileList := self_nFileList st;
     targetFN_txt := targetFN_txt st;
     newFN_txt := v;
     selFolder2move_txt := selFolder2move_txt st;
     subFolders_chk := subFolders_chk st;
     selFolder2move_enabled := selFolder2move_enabled st |}.

Definition set_subFolders_chk (st : frame) (b : bool) : frame :=
  {| self_selectedFolders := self_selectedFolders st;
     self_folder2moveRenFile := self_folder2moveRenFile st;
     self_fileList := self_fileList st;
     self_nFileList := self_nFileList st;
     targetFN_txt := targetFN_txt st;
     newFN_txt := newFN_txt st;
     selFolder2move_txt := selFolder2move_txt st;
     subFolders_chk := b;
     selFolder2move_enabled := selFolder2move_enabled st |}.

(** One thing that happens to the frame: a handler runs, or the user edits a
    widget. *)
Inductive frame_step (fs : fileSystem) : frame -> frame -> Prop :=
  | step_selectFolders clk fuel st dlg st' :
      on_selectFolders fs clk fuel st dlg = Some st' -> frame_step fs st st'
  | step_selFolder2move clk st dlg :
      frame_step fs st (on_selFolder2move fs clk st dlg)
  | step_onCheckBox st checked :
      frame_step fs st (onCheckBox st checked)
  | step_onChoice clk st chosenOStr :
      frame_step fs st (onChoice fs clk st chosenOStr)
  | step_onEnteredInTC clk st objName :
      frame_step fs st (onEnteredInTC fs clk st objName)
  | step_run (disk : Type) (rename : disk -> str -> str -> option disk)
             run_clock (w : world disk) st :
      frame_step fs st (snd (fst (on_run disk rename run_clock w st)))
  | step_type_targetFN st v : frame_step fs st (set_targetFN_txt st v)
  | step_type_newFN st v : frame_step fs st (set_newFN_txt st v)
  | step_toggle_subFolders st b : frame_step fs st (set_subFolders_chk st b).

(** The frames that can be reached from the one [__init__] leaves. *)
Inductive reachable (fs : fileSystem) : frame -> Prop :=
  | reach_init : reachable fs init_frame
  | reach_step st st' : reachable fs st -> frame_step fs st st' -> reachable fs st'.

(** A frame in which the folder [/tmp/a] of [demo_fs] is selected. *)
Definition demo_frame : frame :=
  frame_updateFileList demo_fs (fun _ => epoch)
    {| self_selectedFolders := [$"/tmp/a"]; self_folder2moveRenFile := [];
       self_fileList := []; self_nFileList := [];
       targetFN_txt := $"*.*"; newFN_txt := tStr oFileN;
       selFolder2move_txt := []; subFolders_chk := false;
       selFolder2move_enabled := true |}.

(* ------------------------------------------------------------------ *)
(** ** [getWXFonts] *)

From Stdlib Require Import ZArith.

(** The constants that [getWXFonts] passes to [wx.Font]. *)
Inductive wxFontFamily := FONTFAMILY_SWISS.
Inductive wxFontStyle := FONTSTYLE_NORMAL.
Inductive wxFontWeight := FONTWEIGHT_BOLD.

(** The arguments of one call of [wx.Font]. *)
Record wxFont := {
  pointSize : Z;
  family : wxFontFamily;
  style : wxFontStyle;
  weight : wxFontWeight;
  underline : bool;
  faceName : str
}.

(** The loop [for i in range(numFonts)] with [n] iterations left. *)
Fixpoint fonts_loop (face : str) (fSzInc : Z) (n : nat) (fontSz : Z) : list wxFont :=
  match n with
  | O => []
  | S n' =>
      {| pointSize := fontSz; family := FONTFAMILY_SWISS;
         style := FONTSTYLE_NORMAL; weight := FONTWEIGHT_BOLD;
         underline := false; faceName := face |}
      :: fonts_loop face fSzInc n' (fontSz + fSzInc)%Z
  end.

(** [getWXFonts(initFontSz, numFonts, fSzInc, fontFaceName)]; [platform] is
    [sys.platform]. *)
Definition getWXFonts (platform : str) (initFontSz numFonts fSzInc : Z)
    (fontFaceName : str) : list wxFont :=
  let face :=
    if Py.eqb fontFaceName []
    then (if Py.contains $"darwin" platform then $"Monaco" else $"Courier")
    else fontFaceName in
  fonts_loop face fSzInc (Z.to_nat numFonts) initFontSz.

(* ------------------------------------------------------------------ *)
(** ** Sanity checks of the embedding *)

Example get_time_stamp_doc : get_time_stamp epoch = $"2019_09_10_16_21_56".
Proof. reflexivity. Qed.

Example scenario_6 :
  nFileList (plan (input "[folderN]_[incNumInFolder]")
                  [$"/tmp/a/x.txt"; $"/tmp/a/y.txt"; $"/tmp/b/z.txt"])
  = [$"/tmp/a/a_1.txt"; $"/tmp/a/a_2.txt"; $"/tmp/b/b_1.txt"].
Proof. vm_compute. reflexivity. Qed.


Example override_plan :
  nFileList (plan (input_to "[oFileN]_[ts]" "/out") [$"/tmp/a/x.txt"])
  = [$"/out/x_2019_09_10_16_21_56.txt"].
Proof. vm_compute. reflexivity. Qed.

(** Collector, matcher and planner in a row on [demo_fs]. *)
Example select_then_plan :
  option_map selectedFolders (selectFolders demo_fs 2 [$"Macintosh HD/tmp"] true)
  = Some [$"/tmp"; $"/tmp/a"] /\
  updateFileList demo_fs [$"/tmp"; $"/tmp/a"] $"*.*"
    (input "[folderN]_[incNumInFolder]")
  = ([$"/tmp/f.txt"; $"/tmp/a/x.txt"; $"/tmp/a/y.txt"],
     [$"/tmp/tmp_1.txt"; $"/tmp/a/a_1.txt"; $"/tmp/a/a_2.txt"]).
Proof. vm_compute. split; reflexivity. Qed.

(* ------------------------------------------------------------------ *)
(** ** The string primitives: basic facts *)

Module PyFacts.
Import Py.

Lemma ascii_eqb_false (a b : ascii) : a <> b -> Ascii.eqb a b = false.
Proof. intro H. now apply Ascii.eqb_neq. Qed.

Lemma existsb_eqb_false (c : ascii) (s : str) :
  existsb (Ascii.eqb c) s = false <-> ~ In c s.
Proof.
  induction s as [|a s IH]; simpl.
  - tauto.
  - rewrite orb_false_iff, IH. split.
    + intros [Hc Hs] [->|Hin]; [now rewrite Ascii.eqb_refl in Hc | tauto].
    + intros H. split; [apply ascii_eqb_false; intros ->; tauto | tauto].
Qed.

Lemma existsb_eqb_true (c : ascii) (s : str) :
  existsb (Ascii.eqb c) s = true <-> In c s.
Proof.
  rewrite existsb_exists. split.
  - intros [x [Hin Hx]]. apply Ascii.eqb_eq in Hx. now subst.
  - intros H. exists c. split; [assumption | apply Ascii.eqb_refl].
Qed.

Lemma eqb_eq (a b : str) : eqb a b = true <-> a = b.
Proof.
  revert b. induction a as [|x a IH]; intros [|y b]; simpl; try easy.
  rewrite andb_true_iff, Ascii.eqb_eq, IH. split.
  - now intros [-> ->].
  - intros H. now injection H.
Qed.

Lemma eqb_refl (a : str) : eqb a a = true.
Proof. now apply eqb_eq. Qed.

Lemma eqb_neq (a b : str) : eqb a b = false <-> a <> b.
Proof.
  rewrite <- eqb_eq. destruct (eqb a b); split; congruence.
Qed.

(** *** [startswith] *)

Lemma startswith_app (p s : str) : startswith p (p ++ s) = true.
Proof.
  induction p as [|a p IH]; simpl; [reflexivity|].
  now rewrite Ascii.eqb_refl.
Qed.

Lemma startswith_prefix (p s : str) :
  startswith p s = true <-> exists r, s = p ++ r.
Proof.
  revert s. induction p as [|a p IH]; intros s; simpl.
  - split; [intros _; now exists s | reflexivity].
  - destruct s as [|b s].
    + split; [discriminate | intros [r Hr]; discriminate].
    + rewrite andb_true_iff, Ascii.eqb_eq, IH. split.
      * intros [-> [r ->]]. now exists r.
      * intros [r Hr]. injection Hr as -> ->. split; [reflexivity | now exists r].
Qed.

(** A prefix of [d ++ x] either lies within [d] or reaches past it. *)
Lemma startswith_app_cases (p d x : str) :
  startswith p (d ++ x) = true ->
  startswith p d = true \/ exists y, p = d ++ y.
Proof.
  revert d. induction p as [|a p IH]; intros d H; simpl.
  - now left.
  - destruct d as [|b d].
    + right. now exists (a :: p).
    + simpl in H. apply andb_true_iff in H as [Hab H].
      apply Ascii.eqb_eq in Hab. subst b.
      destruct (IH d H) as [Hd|[y ->]].
      * left. simpl. now rewrite Ascii.eqb_refl.
      * right. now exists y.
Qed.

(** *** [split] *)

Lemma split_not_nil (sep : ascii) (s : str) : split sep s <> [].
Proof.
  destruct s as [|c s]; simpl; [discriminate|].
  destruct (Ascii.eqb c sep); [discriminate|].
  destruct (split sep s); discriminate.
Qed.

Lemma split_no_sep (sep : ascii) (s : str) :
  ~ In sep s -> split sep s = [s].
Proof.
  induction s as [|c s IH]; simpl; intros H; [reflexivity|].
  rewrite ascii_eqb_false by (intros ->; tauto).
  rewrite IH by tauto. reflexivity.
Qed.

(** Splitting at the first separator. *)
Lemma split_first_sep (sep : ascii) (pre rest : str) :
  ~ In sep pre -> split sep (pre ++ sep :: rest) = pre :: split sep rest.
Proof.
  induction pre as [|c pre IH]; simpl; intros H.
  - now rewrite Ascii.eqb_refl.
  - rewrite ascii_eqb_false by (intros ->; tauto).
    rewrite IH by tauto. reflexivity.
Qed.

Lemma last_cons_not_nil (x : str) (l : list str) :
  l <> [] -> last (x :: l) = last l.
Proof. destruct l; [congruence | reflexivity]. Qed.

(** The last segment is what follows the last separator. *)
Lemma last_split_app (sep : ascii) (a e : str) :
  ~ In sep e -> last (split sep (a ++ sep :: e)) = e.
Proof.
  intros He. induction a as [|c a IH]; simpl.
  - rewrite Ascii.eqb_refl, split_no_sep by assumption. reflexivity.
  - destruct (Ascii.eqb c sep).
    + rewrite last_cons_not_nil by apply split_not_nil. exact IH.
    + destruct (split sep (a ++ sep :: e)) as [|seg segs] eqn:E.
      * now apply split_not_nil in E.
      * destruct segs as [|seg' segs].
        -- unfold last in IH. simpl in IH. subst seg.
           (* the only segment would contain the separator *)
           exfalso.
           assert (Hn : List.length (split sep (a ++ sep :: e)) >= 2).
           { clear E. induction a as [|d a IHa]; simpl.
             - rewrite Ascii.eqb_refl. simpl.
               destruct (split sep e) eqn:E'; [now apply split_not_nil in E'|simpl; lia].
             - destruct (Ascii.eqb d sep); simpl.
               + destruct (split sep (a ++ sep :: e)) eqn:E'; [now apply split_not_nil in E'|simpl; lia].
               + destruct (split sep (a ++ sep :: e)); simpl in *; lia. }
           rewrite E in Hn. simpl in Hn. lia.
        -- exact IH.
Qed.

(** No segment contains the separator, and every character of a segment
    comes from the string. *)
Lemma split_segments (sep : ascii) (s : str) :
  Forall (fun seg => ~ In sep seg /\ forall c, In c seg -> In c s) (split sep s).
Proof.
  induction s as [|c s IH]; simpl.
  - constructor; [|constructor]. split; [tauto | intros c []].
  - destruct (Ascii.eqb c sep) eqn:E.
    + constructor.
      * split; [tauto | intros x []].
      * eapply Forall_impl; [|exact IH]. simpl. intros seg [H1 H2].
        split; [assumption | intros x Hx; right; auto].
    + destruct (split sep s) as [|seg segs].
      * constructor; [|constructor]. split.
        -- intros [<-|[]]. now rewrite Ascii.eqb_refl in E.
        -- intros x [<-|[]]. now left.
      * inversion IH as [|? ? [H1 H2] Hrest]; subst. constructor.
        -- split.
           ++ intros [<-|Hin]; [now rewrite Ascii.eqb_refl in E | tauto].
           ++ intros x [<-|Hin]; [now left | right; auto].
        -- eapply Forall_impl; [|exact Hrest]. simpl. intros sg [H3 H4].
           split; [assumption | intros x Hx; right; auto].
Qed.

Lemma Forall_last (P : str -> Prop) (l : list str) :
  l <> [] -> Forall P l -> P (last l).
Proof.
  intros Hne H. induction H as [|x l Hx Hl IH]; [congruence|].
  destruct l as [|y l]; [exact Hx|].
  rewrite last_cons_not_nil by discriminate. apply IH. discriminate.
Qed.

Lemma Forall_first (P : str -> Prop) (l : list str) :
  l <> [] -> Forall P l -> P (first l).
Proof. intros Hne H. destruct H; [congruence | assumption]. Qed.

End PyFacts.

(* ------------------------------------------------------------------ *)
(** ** Paths: basic facts *)

Module PathFacts.
Import Py PyFacts.

Lemma basename_no_slash_id (p : str) : ~ In "/" p -> basename p = p.
Proof.
  destruct p as [|c t]; simpl; intros H; [reflexivity|].
  destruct (existsb (Ascii.eqb "/") t) eqn:E.
  - apply existsb_eqb_true in E. tauto.
  - rewrite ascii_eqb_false by (intros ->; tauto). reflexivity.
Qed.

Lemma basename_no_slash (p : str) : ~ In "/" (basename p).
Proof.
  induction p as [|c t IH]; simpl; [tauto|].
  destruct (existsb (Ascii.eqb "/") t) eqn:E; [assumption|].
  apply existsb_eqb_false in E.
  destruct (Ascii.eqb c "/") eqn:Ec; [assumption|].
  intros [->|H]; [now rewrite Ascii.eqb_refl in Ec | tauto].
Qed.

Lemma folder_then_basename (p : str) : containing_folder p ++ basename p = p.
Proof.
  induction p as [|c t IH]; simpl; [reflexivity|].
  destruct (existsb (Ascii.eqb "/") t).
  - simpl. now rewrite IH.
  - destruct (Ascii.eqb c "/"); reflexivity.
Qed.

Lemma containing_folder_not_nil (p : str) : In "/" p -> containing_folder p <> [].
Proof.
  destruct p as [|c t]; intros H; [destruct H|]. cbn [containing_folder].
  destruct (existsb (Ascii.eqb "/") t) eqn:E; [discriminate|].
  apply existsb_eqb_false in E. destruct H as [->|H]; [|tauto].
  rewrite Ascii.eqb_refl. discriminate.
Qed.

(** A folder is empty or ends with the separator. *)
Lemma containing_folder_last (p : str) : List.last (containing_folder p) "/" = "/".
Proof.
  induction p as [|c t IH]; simpl; [reflexivity|].
  destruct (existsb (Ascii.eqb "/") t) eqn:E.
  - apply existsb_eqb_true, containing_folder_not_nil in E.
    destruct (containing_folder t); [congruence | exact IH].
  - destruct (Ascii.eqb c "/") eqn:Ec; [|reflexivity].
    apply Ascii.eqb_eq in Ec. now subst.
Qed.

Lemma basename_after_slash (a b : str) : basename (a ++ "/" :: b) = basename b.
Proof.
  induction a as [|c a IH]; simpl.
  - destruct (existsb (Ascii.eqb "/") b) eqn:E; [reflexivity|].
    apply existsb_eqb_false in E. now rewrite basename_no_slash_id.
  - assert (E : existsb (Ascii.eqb "/") (a ++ "/" :: b) = true).
    { apply existsb_eqb_true, in_or_app. right. now left. }
    now rewrite E.
Qed.


Lemma containing_folder_no_slash (p : str) : ~ In "/" p -> containing_folder p = [].
Proof.
  destruct p as [|c t]; simpl; intros H; [reflexivity|].
  destruct (existsb (Ascii.eqb "/") t) eqn:E.
  - apply existsb_eqb_true in E. tauto.
  - rewrite ascii_eqb_false by (intros ->; tauto). reflexivity.
Qed.

(** Appending a slash-free name to a folder gives a path in that folder. *)
Lemma containing_folder_app (d f : str) :
  List.last d "/" = "/" -> ~ In "/" f -> containing_folder (d ++ f) = d.
Proof.
  intros Hd Hf. induction d as [|c d IH]; simpl.
  - now apply containing_folder_no_slash.
  - destruct d as [|c' d'].
    + simpl in Hd. subst c. simpl.
      assert (E : existsb (Ascii.eqb "/") f = false) by now apply existsb_eqb_false.
      now rewrite E.
    + assert (E : existsb (Ascii.eqb "/") ((c' :: d') ++ f) = true).
      { apply existsb_eqb_true, in_or_app. left.
        clear IH. revert c' Hd. induction d' as [|x d' IHd]; intros c' Hd.
        - simpl in Hd. subst. now left.
        - right. apply IHd. exact Hd. }
      rewrite E. f_equal. apply IH. exact Hd.
Qed.

Lemma endswith_last (d : str) :
  d <> [] -> List.last d "/" = "/" -> endswith ["/"] d = true.
Proof.
  intros Hne Hl. destruct (exists_last Hne) as [q [c ->]].
  rewrite last_last in Hl. subst c.
  unfold endswith. rewrite rev_app_distr. reflexivity.
Qed.



(** Joining a folder with a slash-free, non-empty name. *)
Lemma join_folder (d f : str) :
  List.last d "/" = "/" -> ~ In "/" f -> join d f = d ++ f.
Proof.
  intros Hd Hf. unfold join.
  assert (Hs : startswith ["/"] f = false).
  { destruct f as [|c f]; [reflexivity|]. cbn [startswith].
    rewrite ascii_eqb_false; [reflexivity | intros <-; apply Hf; now left]. }
  rewrite Hs. destruct d as [|x d]; [reflexivity|].
  rewrite endswith_last; [reflexivity | discriminate | assumption].
Qed.

End PathFacts.

(* ------------------------------------------------------------------ *)
(** ** The planner: shape of the plan *)

Module PlanFacts.
Import Py PyFacts PathFacts.


Lemma oFExt_no_slash (fp : str) : ~ In "/" (oFExt_of fp).
Proof.
  unfold oFExt_of, bn_of. intros H.
  apply (basename_no_slash fp).
  revert H.
  apply (Forall_last (fun seg => In "/" seg -> In "/" (basename fp)));
    [apply split_not_nil|].
  eapply Forall_impl; [|apply split_segments]. simpl. intros seg [_ H]. apply H.
Qed.

Lemma oFN_no_slash (fp : str) : ~ In "/" (oFN_of fp).
Proof.
  unfold oFN_of, bn_of. intros H.
  apply (basename_no_slash fp).
  revert H.
  apply (Forall_first (fun seg => In "/" seg -> In "/" (basename fp)));
    [apply split_not_nil|].
  eapply Forall_impl; [|apply split_segments]. simpl. intros seg [_ H]. apply H.
Qed.

(** Every pass appends one destination per entry, each built by [newFP_of]
    from the expansion of the template at that entry. *)
Lemma plan_from_shape (inp : planInput) (pad : nat) (fileList : list str) :
  forall i st, exists news,
    nFileList (plan_from inp pad i fileList st) = nFileList st ++ news /\
    Forall2 (fun fp np => exists j s,
               np = newFP_of inp fp (newFN (expand inp pad j fp s)))
            fileList news.
Proof.
  induction fileList as [|fp rest IH]; intros i st; simpl.
  - exists []. split; [now rewrite app_nil_r | constructor].
  - destruct (IH (S i) (entry_step inp pad i fp st)) as [news [Heq Hall]].
    exists (newFP_of inp fp (newFN (expand inp pad i fp st)) :: news). split.
    + rewrite Heq. simpl. now rewrite <- app_assoc.
    + constructor; [now exists i, st | exact Hall].
Qed.

Lemma plan_shape (inp : planInput) (fileList : list str) :
  Forall2 (fun fp np => exists pad j s,
             np = newFP_of inp fp (newFN (expand inp pad j fp s)))
          fileList (nFileList (plan inp fileList)).
Proof.
  unfold plan.
  destruct (plan_from_shape inp (List.length (str_of_nat (List.length fileList)))
              fileList 0 init_state) as [news [Heq Hall]].
  rewrite Heq. simpl.
  eapply Forall2_impl; [|exact Hall]. simpl.
  intros fp np [j [s H]]. eauto.
Qed.

(** The plan is index-aligned with the file list. *)
Lemma plan_length (inp : planInput) (fileList : list str) :
  List.length (nFileList (plan inp fileList)) = List.length fileList.
Proof. symmetry. eapply Forall2_length, plan_shape. Qed.



End PlanFacts.

(* ------------------------------------------------------------------ *)
(** ** Base name and extension of an entry *)

(** C5.  For an entry whose base name has at least two dots, that is, reads
    [pre.mid.suf] with no dot in [pre] and none in [suf] ([mid] may hold
    further dots), the derived original name is [pre], everything before the
    first dot, and the derived extension is [suf], what follows the last dot:
    the middle segments are in neither. *)
Theorem multi_dot_name_split (fp pre mid suf : str) :
  bn_of fp = pre ++ "." :: mid ++ "." :: suf ->
  ~ In "." pre -> ~ In "." suf ->
  oFN_of fp = pre /\ oFExt_of fp = suf.
Proof.
  intros Hbn Hpre Hsuf. unfold oFN_of, oFExt_of. rewrite Hbn. split.
  - now rewrite PyFacts.split_first_sep.
  - change (pre ++ "." :: mid ++ "." :: suf)
      with (pre ++ ("." :: mid) ++ "." :: suf).
    rewrite app_assoc. now apply PyFacts.last_split_app.
Qed.

(** The file [a.b.txt] of the specification: base [a], extension [txt]. *)
Lemma multi_dot_name_split_witness :
  oFN_of $"/tmp/a.b.txt" = $"a" /\ oFExt_of $"/tmp/a.b.txt" = $"txt".
Proof.
  apply (multi_dot_name_split $"/tmp/a.b.txt" $"a" $"b" $"txt").
  - reflexivity.
  - simpl. intros [H|[]]. discriminate.
  - simpl. intros [H|[H|[H|[]]]]; discriminate.
Defined.

(** With the template [[oFileN]] the middle segment is gone from the new
    name. *)
Example multi_dot_plan :
  nFileList (plan (input "[oFileN]") [$"/tmp/a.b.txt"]) = [$"/tmp/a.txt"].
Proof. vm_compute. reflexivity. Qed.

(* ------------------------------------------------------------------ *)
(** ** The extension is carried over *)


(** A base name without a dot is its own extension: [fn[0]] and [fn[-1]] are
    the same segment. *)
Example dotless_name_plan :
  oFExt_of $"/tmp/README" = $"README" /\
  nFileList (plan (input "[oFileN]") [$"/tmp/README"]) = [$"/tmp/README.README"].
Proof. vm_compute. split; reflexivity. Qed.

(* ------------------------------------------------------------------ *)
(** ** Which characters an expansion can contain *)

Module CharFacts.
Import Py PyFacts PathFacts.

Lemma replace_from_chars (old new : str) (c : ascii) (s : str) :
  forall skip, In c (replace_from old new skip s) -> In c new \/ In c s.
Proof.
  induction s as [|a s IH]; intros skip H; simpl in H; [destruct H|].
  destruct skip as [|k].
  - destruct (startswith old (a :: s)).
    + apply in_app_or in H as [H|H]; [now left|].
      destruct (IH _ H); [now left | right; now right].
    + destruct H as [->|H]; [right; now left|].
      destruct (IH _ H); [now left | right; now right].
  - destruct (IH _ H); [now left | right; now right].
Qed.

(** A replacement brings in no character that is in neither the
    replacement string nor the original. *)
Lemma replace_chars (old new s : str) (c : ascii) :
  In c (replace old new s) -> In c new \/ In c s.
Proof.
  unfold replace. destruct old as [|o old].
  - intros H. apply in_app_or in H as [H|H]; [now left|].
    apply in_flat_map in H as [x [Hx [->|H]]]; [now right | now left].
  - apply replace_from_chars.
Qed.

Lemma uint_no_slash (u : Decimal.uint) :
  ~ In "/" (list_ascii_of_string (DecimalString.NilEmpty.string_of_uint u)).
Proof.
  induction u; simpl; try tauto; intros [H|H]; try discriminate; tauto.
Qed.

Lemma str_of_nat_no_slash (n : nat) : ~ In "/" (str_of_nat n).
Proof. apply uint_no_slash. Qed.

Lemma zfill_chars (w : nat) (s : str) (c : ascii) :
  In c (zfill w s) -> c = "0" \/ In c s.
Proof.
  unfold zfill. intros H. apply in_app_or in H as [H|H]; [|now right].
  left. now apply repeat_spec in H.
Qed.

Lemma fmt_i_no_slash (d v : nat) : ~ In "/" (fmt_i d v).
Proof.
  unfold fmt_i. intros H. apply zfill_chars in H as [H|H]; [discriminate|].
  now apply str_of_nat_no_slash in H.
Qed.

Lemma get_time_stamp_no_slash (t : datetime) : ~ In "/" (get_time_stamp t).
Proof.
  unfold get_time_stamp. intros H.
  repeat (apply in_app_or in H as [H|H];
          [now apply fmt_i_no_slash in H | destruct H as [H|H]; [discriminate|]]).
  now apply fmt_i_no_slash in H.
Qed.

Lemma folderName_no_slash (fpath : str) : ~ In "/" (folderName fpath).
Proof.
  unfold folderName.
  apply (Forall_last (fun seg => ~ In "/" seg)); [discriminate|].
  constructor; [tauto|].
  apply incl_Forall with (l1 := split "/" fpath).
  - intros x Hx. now apply filter_In in Hx.
  - eapply Forall_impl; [|apply split_segments]. simpl. tauto.
Qed.

(** No step of the inner loop brings a slash into the name when the
    original name has none. *)
Lemma token_step_no_slash (c : entryCtx) (e : expansion) (k : token) :
  ~ In "/" (oFN c) -> ~ In "/" (newFN e) -> ~ In "/" (newFN (token_step c e k)).
Proof.
  intros Ho He. unfold token_step.
  destruct (negb (contains (tStr k) (newFN e))); [assumption|].
  cbn [newFN]. intros H. apply replace_chars in H as [H|H]; [|tauto].
  destruct k.
  - tauto.
  - now apply folderName_no_slash in H.
  - apply zfill_chars in H as [H|H]; [discriminate|].
    now apply str_of_nat_no_slash in H.
  - apply zfill_chars in H as [H|H]; [discriminate|].
    now apply str_of_nat_no_slash in H.
  - now apply get_time_stamp_no_slash in H.
Qed.

Lemma expand_no_slash (inp : planInput) (pad i : nat) (fp : str) (st : planState) :
  ~ In "/" (newForm inp) -> ~ In "/" (newFN (expand inp pad i fp st)).
Proof.
  intros H. unfold expand.
  set (c := ctx_of inp pad i fp st).
  assert (Ho : ~ In "/" (oFN c)) by apply PlanFacts.oFN_no_slash.
  set (e0 := {| newFN := newForm inp; incN := st_incN st; substituted := [] |}).
  assert (He : ~ In "/" (newFN e0)) by exact H.
  clearbody e0 c. revert e0 He.
  induction newFFO as [|k ks IH]; intros e0 He; simpl; [assumption|].
  apply IH. now apply token_step_no_slash.
Qed.

End CharFacts.

(* ------------------------------------------------------------------ *)
(** ** The planner's folder and the containing folder *)

Module FolderFacts.
Import Py PyFacts PathFacts.

Lemma replace_from_skip_all (old new : str) (s : str) :
  forall k, List.length s <= k -> replace_from old new k s = [].
Proof.
  induction s as [|a s IH]; intros k Hk; simpl; [reflexivity|].
  simpl in Hk. destruct k as [|k]; [lia|]. apply IH. lia.
Qed.

Lemma last_slash_in (d : str) : d <> [] -> List.last d "/" = "/" -> In "/" d.
Proof.
  intros Hne Hl. destruct (exists_last Hne) as [q [c ->]].
  rewrite last_last in Hl. subst c. apply in_or_app. right. now left.
Qed.

Lemma last_slash_tail (c : ascii) (d : str) :
  List.last (c :: d) "/" = "/" -> List.last d "/" = "/".
Proof. destruct d; [reflexivity | intros H; exact H]. Qed.

(** Removing a slash-free name from the end of a path whose folder part does
    not contain the name erases the name only. *)
Lemma replace_from_name_at_end (old d : str) :
  old <> [] -> ~ In "/" old -> List.last d "/" = "/" ->
  contains old d = false ->
  replace_from old [] 0 (d ++ old) = d.
Proof.
  intros Hne Hs. induction d as [|c d IH]; intros Hl Hc.
  - simpl. destruct old as [|o old]; [congruence|].
    cbn [replace_from].
    replace (startswith (o :: old) (o :: old)) with true
      by (symmetry; rewrite <- (app_nil_r (o :: old)) at 2; apply startswith_app).
    simpl. apply replace_from_skip_all. lia.
  - cbn [contains] in Hc. apply orb_false_iff in Hc as [Hp Hc].
    change ((c :: d) ++ old) with (c :: (d ++ old)). cbn [replace_from].
    destruct (startswith old (c :: d ++ old)) eqn:E.
    + change (c :: d ++ old) with ((c :: d) ++ old) in E.
      apply startswith_app_cases in E as [E|[y ->]]; [congruence|].
      exfalso. apply Hs. apply in_or_app. left.
      apply last_slash_in; [discriminate | assumption].
    + f_equal. apply IH; [now apply last_slash_tail in Hl | assumption].
Qed.

(** When the base name of an entry occurs nowhere in its containing folder,
    the planner's [folderPath] is the containing folder. *)
Lemma folderPath_of_containing_folder (fp : str) :
  contains (bn_of fp) (containing_folder fp) = false ->
  folderPath_of fp = containing_folder fp.
Proof.
  intros H. unfold folderPath_of, replace.
  destruct (bn_of fp) as [|o old] eqn:Ebn.
  - destruct (containing_folder fp); discriminate.
  - rewrite <- (folder_then_basename fp) at 1. fold (bn_of fp). rewrite Ebn.
    apply replace_from_name_at_end.
    + discriminate.
    + rewrite <- Ebn. apply basename_no_slash.
    + apply containing_folder_last.
    + assumption.
Qed.

End FolderFacts.

(* ------------------------------------------------------------------ *)
(** ** The destination folder *)

(** C3, as the code has it.  When the destination override is unset and the
    template contains no ['/'], every entry whose base name occurs only at
    the end of its path is planned into its own containing folder. *)
Theorem destination_folder_kept (inp : planInput) (fileList : list str) :
  folder2moveRenFile inp = [] ->
  ~ In "/" (newForm inp) ->
  Forall2 (fun fp np => name_only_at_end fp ->
                        containing_folder np = containing_folder fp)
          fileList (nFileList (plan inp fileList)).
Proof.
  intros Hov Htmpl.
  eapply Forall2_impl; [|apply PlanFacts.plan_shape]. simpl.
  intros fp np [pad [j [s ->]]] Hname.
  unfold newFP_of. rewrite Hov. cbn [Py.eqb negb].
  rewrite (FolderFacts.folderPath_of_containing_folder fp Hname).
  assert (Hfile : ~ In "/" (newFN (expand inp pad j fp s) ++ "." :: oFExt_of fp)).
  { intros H. apply in_app_or in H as [H|[H|H]].
    - now apply CharFacts.expand_no_slash in H.
    - discriminate.
    - now apply PlanFacts.oFExt_no_slash in H. }
  rewrite PathFacts.join_folder
    by (try apply PathFacts.containing_folder_last; assumption).
  apply PathFacts.containing_folder_app;
    [apply PathFacts.containing_folder_last | assumption].
Qed.

Lemma destination_folder_kept_witness :
  Forall2 (fun fp np => name_only_at_end fp ->
                        containing_folder np = containing_folder fp)
    [$"/tmp/a/x.txt"; $"/tmp/b/z.txt"]
    (nFileList (plan (input "[folderN]_[incNumInFolder]")
                     [$"/tmp/a/x.txt"; $"/tmp/b/z.txt"])).
Proof.
  apply (destination_folder_kept (input "[folderN]_[incNumInFolder]")).
  - reflexivity.
  - vm_compute. intuition discriminate.
Defined.

(** C3 as stated fails: a template with a ['/'] in it plans the entry into a
    sub-folder of its containing folder although no override is set. *)
Lemma destination_folder_counterexample :
  folder2moveRenFile (input "sub/[oFileN]") = [] /\
  nFileList (plan (input "sub/[oFileN]") [$"/tmp/a/x.txt"])
    = [$"/tmp/a/sub/x.txt"] /\
  containing_folder $"/tmp/a/sub/x.txt" <> containing_folder $"/tmp/a/x.txt".
Proof.
  split; [reflexivity|]. split; [vm_compute; reflexivity|].
  vm_compute. discriminate.
Qed.

(** [folderPath = fp.replace(bn, '')] erases every occurrence of the base
    name: a file [a.b] in a folder [a.b] is planned into the parent folder. *)
Example folderPath_erases_every_occurrence :
  folderPath_of $"/tmp/a.b/a.b" = $"/tmp//" /\
  containing_folder $"/tmp/a.b/a.b" = $"/tmp/a.b/" /\
  nFileList (plan (input "[oFileN]") [$"/tmp/a.b/a.b"]) = [$"/tmp//a.b"].
Proof. vm_compute. repeat split. Qed.

(* ------------------------------------------------------------------ *)
(** ** Tokens that are not in the name under construction *)

Module CounterFacts.
Import Py PyFacts.

Lemma replace_from_absent (old new s : str) :
  contains old s = false -> replace_from old new 0 s = s.
Proof.
  induction s as [|a s IH]; intros H; [reflexivity|].
  cbn [contains] in H. apply orb_false_iff in H as [Hp Hc].
  cbn [replace_from]. rewrite Hp. f_equal. now apply IH.
Qed.

(** Replacing a string that does not occur changes nothing. *)
Lemma replace_absent (old new s : str) :
  contains old s = false -> replace old new s = s.
Proof.
  unfold replace. destruct old as [|o old]; [|apply replace_from_absent].
  intros H. destruct s; discriminate.
Qed.

(** A step for a token that is not a counter leaves the counter alone, and
    its effect on the name is the replacement, present or not. *)
Lemma token_step_plain (c : entryCtx) (e : expansion) (k : token) :
  is_incNum k = false ->
  newFN (token_step c e k) = replace (tStr k) (rStr_of c k) (newFN e) /\
  incN (token_step c e k) = incN e /\
  forall k', is_incNum k' = true ->
    values_in k' (substituted (token_step c e k)) = values_in k' (substituted e).
Proof.
  intros Hk. unfold token_step.
  destruct (contains (tStr k) (newFN e)) eqn:E; cbn [negb].
  - destruct k; try discriminate Hk; cbn [newFN incN substituted rStr_of];
      (split; [reflexivity|]); (split; [reflexivity|]);
      intros k' Hk'; unfold values_in; rewrite filter_app, map_app;
      destruct k'; try discriminate Hk'; cbn; now rewrite app_nil_r.
  - rewrite replace_absent by assumption. repeat split.
Qed.

(** A step for a token that is not in the name changes nothing. *)
Lemma token_step_absent (c : entryCtx) (e : expansion) (k : token) :
  contains (tStr k) (newFN e) = false -> token_step c e k = e.
Proof. intros H. unfold token_step. now rewrite H. Qed.

(** The name under construction after the two name tokens. *)
Lemma name_after_names (inp : planInput) (pad i : nat) (fp : str) (st : planState) :
  let c := ctx_of inp pad i fp st in
  let e2 := fold_left (token_step c) [oFileN; folderN]
              {| newFN := newForm inp; incN := st_incN st; substituted := [] |} in
  newFN e2 = name_at_counters inp fp /\ incN e2 = st_incN st /\
  forall k', is_incNum k' = true -> values_in k' (substituted e2) = [].
Proof.
  intros c e2. subst e2. cbn [fold_left].
  set (e0 := {| newFN := newForm inp; incN := st_incN st; substituted := [] |}).
  destruct (token_step_plain c e0 oFileN eq_refl) as [N1 [I1 S1]].
  destruct (token_step_plain c (token_step c e0 oFileN) folderN eq_refl)
    as [N2 [I2 S2]].
  split; [|split].
  - rewrite N2, N1. reflexivity.
  - now rewrite I2, I1.
  - intros k' Hk'. rewrite S2, S1 by assumption. reflexivity.
Qed.

(** An entry at whose turn neither counter token is in the name leaves the
    counter as it was and records no counter value. *)
Lemma expand_counters_absent (inp : planInput) (pad i : nat) (fp : str)
    (st : planState) :
  contains (tStr incNum) (name_at_counters inp fp) = false ->
  contains (tStr incNumInFolder) (name_at_counters inp fp) = false ->
  incN (expand inp pad i fp st) = st_incN st /\
  forall k', is_incNum k' = true ->
    values_in k' (substituted (expand inp pad i fp st)) = [].
Proof.
  intros H1 H2. unfold expand.
  change newFFO with ([oFileN; folderN] ++ [incNum; incNumInFolder; ts]).
  rewrite fold_left_app.
  destruct (name_after_names inp pad i fp st) as [N [I S]].
  cbv zeta in N, I, S.
  set (c := ctx_of inp pad i fp st) in *.
  set (e2 := fold_left (token_step c) [oFileN; folderN] _) in *.
  cbn [fold_left].
  rewrite (token_step_absent c e2 incNum) by now rewrite N.
  rewrite (token_step_absent c e2 incNumInFolder) by now rewrite N.
  destruct (token_step_plain c e2 ts eq_refl) as [_ [I3 S3]].
  split.
  - now rewrite I3.
  - intros k' Hk'. rewrite S3 by assumption. now apply S.
Qed.

Lemma values_of_app (k : token) (st : planState) (subs : list (token * str)) :
  flat_map (values_in k) (trace st ++ [subs])
  = flat_map (values_in k) (trace st) ++ values_in k subs.
Proof. rewrite flat_map_app. simpl. now rewrite app_nil_r. Qed.

(** A pass over entries none of which has a counter token at its turn. *)
Lemma plan_from_counters_absent (inp : planInput) (pad : nat) (fileList : list str) :
  Forall (fun fp =>
            contains (tStr incNum) (name_at_counters inp fp) = false /\
            contains (tStr incNumInFolder) (name_at_counters inp fp) = false)
         fileList ->
  forall i st,
    st_incN (plan_from inp pad i fileList st) = st_incN st /\
    forall k', is_incNum k' = true ->
      values_of k' (plan_from inp pad i fileList st) = values_of k' st.
Proof.
  induction 1 as [|fp rest [H1 H2] Hrest IH]; intros i st; cbn [plan_from].
  - split; [reflexivity | intros; reflexivity].
  - destruct (IH (S i) (entry_step inp pad i fp st)) as [Hn Hv].
    destruct (expand_counters_absent inp pad i fp st H1 H2) as [En Ev].
    split.
    + rewrite Hn. cbn [entry_step st_incN]. exact En.
    + intros k' Hk'. rewrite Hv by assumption.
      unfold values_of. cbn [entry_step trace].
      rewrite values_of_app, Ev by assumption. now rewrite app_nil_r.
Qed.

End CounterFacts.

(* ------------------------------------------------------------------ *)
(** ** Skipped tokens *)

(** C9, as the code has it.  The test [tStr in newFN] looks at the name under
    construction, not at the template.  A token whose bracket form is not in
    that name when its turn comes is skipped: its step changes neither the
    name nor the counter and records no substitution.  When for every entry
    neither [[incNum]] nor [[incNumInFolder]] is in the name at their turn,
    the counter is the same after the whole pass as before it, and no
    counter value is substituted. *)
Theorem absent_token_skipped (inp : planInput) (fileList : list str) :
  (forall c e k, Py.contains (tStr k) (newFN e) = false -> token_step c e k = e) /\
  (Forall (fun fp =>
       Py.contains (tStr incNum) (name_at_counters inp fp) = false /\
       Py.contains (tStr incNumInFolder) (name_at_counters inp fp) = false)
     fileList ->
   st_incN (plan inp fileList) = st_incN init_state /\
   values_of incNum (plan inp fileList) = [] /\
   values_of incNumInFolder (plan inp fileList) = []).
Proof.
  split; [apply CounterFacts.token_step_absent|].
  intros H. unfold plan.
  destruct (CounterFacts.plan_from_counters_absent inp
              (List.length (Py.str_of_nat (List.length fileList))) fileList H
              0 init_state) as [Hn Hv].
  split; [exact Hn|]. split.
  - now rewrite (Hv incNum eq_refl).
  - now rewrite (Hv incNumInFolder eq_refl).
Qed.

Lemma absent_token_skipped_witness :
  st_incN (plan (input "[folderN]_[oFileN]") [$"/tmp/a/x.txt"; $"/tmp/b/z.txt"])
    = st_incN init_state /\
  values_of incNum
    (plan (input "[folderN]_[oFileN]") [$"/tmp/a/x.txt"; $"/tmp/b/z.txt"]) = [] /\
  values_of incNumInFolder
    (plan (input "[folderN]_[oFileN]") [$"/tmp/a/x.txt"; $"/tmp/b/z.txt"]) = [].
Proof.
  apply (absent_token_skipped (input "[folderN]_[oFileN]")
           [$"/tmp/a/x.txt"; $"/tmp/b/z.txt"]).
  repeat constructor.
Defined.

(** C9 as stated fails: the template [[oFileN]] contains neither counter
    token, yet for a file named [[incNum].txt] the substituted original name
    brings [[incNum]] into the name under construction; it is then
    substituted and the counter moves. *)
Lemma absent_token_counterexample :
  Py.contains (tStr incNum) $"[oFileN]" = false /\
  Py.contains (tStr incNumInFolder) $"[oFileN]" = false /\
  nFileList (plan (input "[oFileN]") [$"/tmp/[incNum].txt"]) = [$"/tmp/1.txt"] /\
  values_of incNum (plan (input "[oFileN]") [$"/tmp/[incNum].txt"]) = [$"1"] /\
  st_incN (plan (input "[oFileN]") [$"/tmp/[incNum].txt"]) = 2.
Proof. vm_compute. repeat split. Qed.

(** For a template that contains the bracket form of none of [[oFileN]],
    [[folderN]], [[incNum]] and [[incNumInFolder]], the tests of the counter
    tokens see the template itself, and the counter is unchanged across the
    whole pass, whatever the files are. *)
Corollary template_without_tokens_keeps_counter (inp : planInput)
    (fileList : list str) :
  Py.contains (tStr oFileN) (newForm inp) = false ->
  Py.contains (tStr folderN) (newForm inp) = false ->
  Py.contains (tStr incNum) (newForm inp) = false ->
  Py.contains (tStr incNumInFolder) (newForm inp) = false ->
  st_incN (plan inp fileList) = 1 /\
  values_of incNum (plan inp fileList) = [] /\
  values_of incNumInFolder (plan inp fileList) = [].
Proof.
  intros Ho Hf Hi Hif.
  assert (Hname : forall fp, name_at_counters inp fp = newForm inp).
  { intros fp. unfold name_at_counters.
    rewrite (CounterFacts.replace_absent (tStr oFileN)) by assumption.
    now rewrite CounterFacts.replace_absent. }
  destruct (CounterFacts.plan_from_counters_absent inp
              (List.length (Py.str_of_nat (List.length fileList))) fileList)
    with (i := 0) (st := init_state) as [Hn Hv].
  { apply Forall_forall. intros fp _. now rewrite Hname. }
  unfold plan. split; [exact Hn|]. split.
  - now rewrite (Hv incNum eq_refl).
  - now rewrite (Hv incNumInFolder eq_refl).
Qed.

(* ------------------------------------------------------------------ *)
(** ** One counter token in the name *)

Module DigitFacts.
Import Py PyFacts.

Lemma succ_not_nil (d : Decimal.uint) : Decimal.Little.succ d <> Decimal.Nil.
Proof. destruct d; discriminate. Qed.

Lemma to_little_uint_not_nil (n : nat) :
  forall acc, acc <> Decimal.Nil -> Nat.to_little_uint n acc <> Decimal.Nil.
Proof.
  induction n as [|n IH]; intros acc H; simpl; [assumption|].
  apply IH, succ_not_nil.
Qed.

Lemma revapp_not_nil (d : Decimal.uint) :
  forall acc, acc <> Decimal.Nil -> Decimal.revapp d acc <> Decimal.Nil.
Proof. induction d; intros acc H; simpl; try assumption; now apply IHd. Qed.

Lemma rev_not_nil (d : Decimal.uint) : d <> Decimal.Nil -> Decimal.rev d <> Decimal.Nil.
Proof.
  unfold Decimal.rev. destruct d; intros H; try congruence; simpl;
    now apply revapp_not_nil.
Qed.

(** [str(n)] is never empty. *)
Lemma str_of_nat_not_nil (n : nat) : str_of_nat n <> [].
Proof.
  unfold str_of_nat, Nat.to_uint.
  assert (H : Decimal.rev (Nat.to_little_uint n Decimal.zero) <> Decimal.Nil).
  { apply rev_not_nil, to_little_uint_not_nil. discriminate. }
  destruct (Decimal.rev (Nat.to_little_uint n Decimal.zero)); try congruence;
    discriminate.
Qed.

Lemma uint_digits (u : Decimal.uint) (c : ascii) :
  In c (list_ascii_of_string (DecimalString.NilEmpty.string_of_uint u)) ->
  In c $"0123456789".
Proof.
  induction u; simpl; try tauto; intros [<-|H]; try (apply IHu in H; exact H);
    simpl; tauto.
Qed.

(** A padded number is a non-empty string of digits. *)
Lemma padded_not_nil (pad n : nat) : padded pad n <> [].
Proof.
  unfold padded, zfill. intros H. apply app_eq_nil in H as [_ H].
  now apply str_of_nat_not_nil in H.
Qed.

Lemma padded_digits (pad n : nat) (c : ascii) :
  In c (padded pad n) -> In c $"0123456789".
Proof.
  unfold padded, zfill. intros H. apply in_app_or in H as [H|H].
  - apply repeat_spec in H. subst c. now left.
  - now apply uint_digits in H.
Qed.

(** No digit occurs in the bracket form of a token. *)
Lemma digits_not_in_tStr (k : token) (c : ascii) :
  In c $"0123456789" -> ~ In c (tStr k).
Proof.
  intros H. simpl in H.
  repeat (destruct H as [<-|H]; [destruct k; simpl; intuition discriminate|]).
  destruct H.
Qed.

Lemma contains_nil (s : str) : contains [] s = true.
Proof. destruct s; reflexivity. Qed.

Lemma replace_nonempty (old new s : str) :
  old <> [] -> replace old new s = replace_from old new 0 s.
Proof. destruct old; [congruence | reflexivity]. Qed.

Section NewText.
Variables old r U : str.
Hypothesis r_not_nil : r <> [].

(** Where a replacement was made, the result starts with a character of
    [r]; so a string without characters of [r] that starts the result
    starts the original. *)
Lemma startswith_replace_new :
  forall V s, (forall c, In c r -> ~ In c V) ->
    startswith V (replace_from old r 0 s) = true -> startswith V s = true.
Proof.
  induction V as [|u V IH]; intros s Hd H; [reflexivity|].
  destruct s as [|a t]; [discriminate H|].
  cbn [replace_from] in H. destruct (startswith old (a :: t)).
  - destruct r as [|r0 r']; [congruence|]. simpl in H.
    apply andb_true_iff in H as [H _]. apply Ascii.eqb_eq in H. subst r0.
    exfalso. apply (Hd u); now left.
  - cbn [startswith] in H |- *. apply andb_true_iff in H as [-> H].
    cbn [andb]. apply IH; [|assumption].
    intros c Hc Hin. apply (Hd c Hc). now right.
Qed.

Hypothesis disjoint : forall c, In c r -> ~ In c U.

Lemma contains_app_new (X : str) :
  forall r', (forall c, In c r' -> ~ In c U) ->
    contains U (r' ++ X) = true -> contains U X = true.
Proof.
  induction r' as [|c r' IH]; intros Hd H; [exact H|].
  cbn [app contains] in H. apply orb_true_iff in H as [H|H].
  - destruct U as [|u V]; [apply contains_nil|].
    cbn [startswith] in H. apply andb_true_iff in H as [H _].
    apply Ascii.eqb_eq in H. subst u. exfalso. apply (Hd c); now left.
  - apply IH; [|assumption]. intros x Hx. apply Hd. now right.
Qed.

Lemma contains_replace_from_new (s : str) :
  forall k, contains U (replace_from old r k s) = true -> contains U s = true.
Proof.
  induction s as [|a t IH]; intros k H; [destruct k; exact H|].
  cbn [contains]. apply orb_true_iff.
  destruct k as [|k]; cbn [replace_from] in H.
  - destruct (startswith old (a :: t)) eqn:E.
    + right. apply contains_app_new in H; [|exact disjoint]. now apply IH in H.
    + cbn [contains] in H. apply orb_true_iff in H as [H|H].
      * left. apply startswith_replace_new; [exact disjoint|].
        cbn [replace_from]. now rewrite E.
      * right. now apply IH in H.
  - right. now apply IH in H.
Qed.

(** A replacement by a non-empty string that shares no character with [U]
    brings no occurrence of [U] into the string. *)
Lemma contains_replace_new (s : str) :
  old <> [] -> contains U s = false -> contains U (replace old r s) = false.
Proof.
  intros Hold H. destruct (contains U (replace old r s)) eqn:E; [|reflexivity].
  rewrite replace_nonempty in E by assumption.
  apply contains_replace_from_new in E. congruence.
Qed.

End NewText.

End DigitFacts.

Module AloneFacts.
Import Py PyFacts CounterFacts DigitFacts.

Lemma values_in_app (k : token) (subs : list (token * str)) (p : token * str) :
  values_in k (subs ++ [p])
  = values_in k subs ++ (if token_eqb (fst p) k then [snd p] else []).
Proof.
  unfold values_in. rewrite filter_app, map_app. simpl.
  now destruct (token_eqb (fst p) k).
Qed.

(** The state of the inner loop when the turn of the counter tokens comes. *)
Lemma expand_split (inp : planInput) (pad i : nat) (fp : str) (st : planState) :
  exists e2,
    newFN e2 = name_at_counters inp fp /\ incN e2 = st_incN st /\
    (forall k', is_incNum k' = true -> values_in k' (substituted e2) = []) /\
    expand inp pad i fp st
    = fold_left (token_step (ctx_of inp pad i fp st)) [incNum; incNumInFolder; ts] e2.
Proof.
  destruct (name_after_names inp pad i fp st) as [N [I S]]. cbv zeta in N, I, S.
  eexists. split; [exact N|]. split; [exact I|]. split; [exact S|].
  unfold expand.
  change newFFO with ([oFileN; folderN] ++ [incNum; incNumInFolder; ts]).
  now rewrite fold_left_app.
Qed.

(** An entry with [[incNum]] but not [[incNumInFolder]] in its name. *)
Lemma expand_incNum_alone (inp : planInput) (pad i : nat) (fp : str)
    (st : planState) :
  contains (tStr incNum) (name_at_counters inp fp) = true ->
  contains (tStr incNumInFolder) (name_at_counters inp fp) = false ->
  incN (expand inp pad i fp st) = st_incN st + 1 /\
  values_in incNum (substituted (expand inp pad i fp st)) = [padded pad (st_incN st)] /\
  values_in incNumInFolder (substituted (expand inp pad i fp st)) = [].
Proof.
  intros H1 H2.
  destruct (expand_split inp pad i fp st) as [e2 [N [I [S ->]]]].
  set (c := ctx_of inp pad i fp st).
  cbn [fold_left].
  assert (E3 : token_step c e2 incNum
               = {| newFN := replace (tStr incNum) (padded pad (incN e2)) (newFN e2);
                    incN := incN e2 + 1;
                    substituted := substituted e2 ++ [(incNum, padded pad (incN e2))] |}).
  { unfold token_step. rewrite N, H1. reflexivity. }
  rewrite E3.
  set (e3 := {| newFN := _; incN := incN e2 + 1; substituted := _ |}).
  assert (A4 : contains (tStr incNumInFolder) (newFN e3) = false).
  { cbn [e3 newFN]. rewrite N. apply contains_replace_new.
    - apply padded_not_nil.
    - intros x Hx. apply digits_not_in_tStr. now apply padded_digits in Hx.
    - discriminate.
    - assumption. }
  rewrite (token_step_absent c e3 incNumInFolder A4).
  destruct (token_step_plain c e3 ts eq_refl) as [_ [I5 S5]].
  rewrite I5, (S5 incNum eq_refl), (S5 incNumInFolder eq_refl).
  cbn [e3 incN substituted]. rewrite !values_in_app, I.
  rewrite (S incNum eq_refl), (S incNumInFolder eq_refl). repeat split.
Qed.

(** An entry with [[incNumInFolder]] but not [[incNum]] in its name. *)
Lemma expand_incNumInFolder_alone (inp : planInput) (pad i : nat) (fp : str)
    (st : planState) :
  contains (tStr incNum) (name_at_counters inp fp) = false ->
  contains (tStr incNumInFolder) (name_at_counters inp fp) = true ->
  let prev := if Nat.eqb i 0 then folderPath_of fp else st_prevFolderP st in
  let v := if eqb (folderPath_of fp) prev then st_incN st else 1 in
  incN (expand inp pad i fp st) = v + 1 /\
  values_in incNumInFolder (substituted (expand inp pad i fp st)) = [padded pad v] /\
  values_in incNum (substituted (expand inp pad i fp st)) = [].
Proof.
  intros H1 H2 prev v.
  destruct (expand_split inp pad i fp st) as [e2 [N [I [S ->]]]].
  set (c := ctx_of inp pad i fp st).
  cbn [fold_left].
  rewrite (token_step_absent c e2 incNum) by now rewrite N.
  assert (E4 : token_step c e2 incNumInFolder
               = {| newFN := replace (tStr incNumInFolder) (padded pad v) (newFN e2);
                    incN := v + 1;
                    substituted := substituted e2 ++ [(incNumInFolder, padded pad v)] |}).
  { unfold token_step. rewrite N, H2. cbn [negb c ctx_of folderPath prevFolderP zeroPadN].
    fold prev. rewrite I. subst v.
    destruct (eqb (folderPath_of fp) prev); reflexivity. }
  rewrite E4.
  set (e4 := {| newFN := _; incN := v + 1; substituted := _ |}).
  destruct (token_step_plain c e4 ts eq_refl) as [_ [I5 S5]].
  rewrite I5, (S5 incNum eq_refl), (S5 incNumInFolder eq_refl).
  cbn [e4 incN substituted]. rewrite !values_in_app.
  rewrite (S incNum eq_refl), (S incNumInFolder eq_refl). repeat split.
Qed.

Lemma plan_from_incNum_alone (inp : planInput) (pad : nat) (fileList : list str) :
  Forall (fun fp =>
            contains (tStr incNum) (name_at_counters inp fp) = true /\
            contains (tStr incNumInFolder) (name_at_counters inp fp) = false)
         fileList ->
  forall i st,
    st_incN (plan_from inp pad i fileList st) = st_incN st + List.length fileList /\
    values_of incNum (plan_from inp pad i fileList st)
    = values_of incNum st
      ++ map (fun j => padded pad (st_incN st + j)) (seq 0 (List.length fileList)) /\
    values_of incNumInFolder (plan_from inp pad i fileList st)
    = values_of incNumInFolder st.
Proof.
  induction 1 as [|fp rest [H1 H2] Hrest IH]; intros i st; cbn [plan_from].
  - simpl. rewrite app_nil_r. repeat split. lia.
  - destruct (IH (S i) (entry_step inp pad i fp st)) as [Hn [Hv Hw]].
    destruct (expand_incNum_alone inp pad i fp st H1 H2) as [En [Ev Ew]].
    rewrite Hn, Hv, Hw. unfold values_of. cbn [entry_step st_incN trace].
    rewrite !values_of_app, En, Ev, Ew, app_nil_r. repeat split.
    + simpl. lia.
    + cbn [List.length seq map]. rewrite <- seq_shift, map_map, <- app_assoc.
      cbn [app]. rewrite Nat.add_0_r. do 2 f_equal.
      apply map_ext. intros j. f_equal. lia.
Qed.

Lemma plan_from_incNumInFolder_alone (inp : planInput) (pad : nat)
    (fileList : list str) :
  Forall (fun fp =>
            contains (tStr incNum) (name_at_counters inp fp) = false /\
            contains (tStr incNumInFolder) (name_at_counters inp fp) = true)
         fileList ->
  forall i st,
    values_of incNumInFolder (plan_from inp pad (S i) fileList st)
    = values_of incNumInFolder st
      ++ map (padded pad)
           (folder_counts (st_prevFolderP st) (st_incN st)
              (map folderPath_of fileList)) /\
    values_of incNum (plan_from inp pad (S i) fileList st) = values_of incNum st.
Proof.
  induction 1 as [|fp rest [H1 H2] Hrest IH]; intros i st; cbn [plan_from].
  - simpl. now rewrite app_nil_r.
  - destruct (IH (S i) (entry_step inp pad (S i) fp st)) as [Hv Hw].
    destruct (expand_incNumInFolder_alone inp pad (S i) fp st H1 H2) as [En [Ev Ew]].
    cbv zeta in En, Ev, Ew. cbn [Nat.eqb] in En, Ev, Ew.
    rewrite Hv, Hw. unfold values_of.
    cbn [entry_step st_incN st_prevFolderP trace].
    rewrite !values_of_app, En, Ev, Ew, app_nil_r. split; [|reflexivity].
    cbn [map folder_counts]. now rewrite <- app_assoc.
Qed.

(** The numbers of [folder_counts]: each is 1 at a change of folder and one
    more than the number before it otherwise. *)
Lemma folder_counts_next (folders : list str) :
  forall prev n i f g v,
    nth_error folders i = Some f -> nth_error folders (S i) = Some g ->
    nth_error (folder_counts prev n folders) i = Some v ->
    nth_error (folder_counts prev n folders) (S i)
    = Some (if eqb g f then v + 1 else 1).
Proof.
  induction folders as [|a folders IH]; intros prev n i f g v Hf Hg Hv.
  - destruct i; discriminate.
  - destruct i as [|i].
    + simpl in Hf. injection Hf as ->.
      destruct folders as [|b folders]; [discriminate|].
      simpl in Hg. injection Hg as ->.
      cbn [folder_counts nth_error] in Hv |- *. injection Hv as <-. reflexivity.
    + cbn [folder_counts]. cbn [nth_error] in Hf, Hg, Hv |- *.
      cbn [folder_counts nth_error] in Hv.
      now apply (IH _ _ i f g v).
Qed.

Lemma folder_counts_positive (folders : list str) :
  forall prev n, 1 <= n -> Forall (fun v => 1 <= v) (folder_counts prev n folders).
Proof.
  induction folders as [|a folders IH]; intros prev n Hn; cbn [folder_counts];
    constructor.
  - destruct (eqb a prev); lia.
  - apply IH. lia.
Qed.

Lemma folder_counts_length (folders : list str) :
  forall prev n, List.length (folder_counts prev n folders) = List.length folders.
Proof.
  induction folders as [|a folders IH]; intros prev n; simpl; [reflexivity|].
  now rewrite IH.
Qed.

End AloneFacts.

(** What the code does for [[incNum]] when [[incNumInFolder]] is not in the
    name of any entry: the values substituted in plan order are the numbers
    1, 2, ..., N of the N entries, each padded with zeros to the length of
    [str(N)], and the counter ends at N + 1. *)
Theorem incNum_alone_counts (inp : planInput) (fileList : list str) :
  Forall (fun fp =>
            Py.contains (tStr incNum) (name_at_counters inp fp) = true /\
            Py.contains (tStr incNumInFolder) (name_at_counters inp fp) = false)
         fileList ->
  values_of incNum (plan inp fileList)
  = map (fun j => padded (List.length (Py.str_of_nat (List.length fileList))) (S j))
        (seq 0 (List.length fileList)) /\
  st_incN (plan inp fileList) = List.length fileList + 1.
Proof.
  intros H. unfold plan.
  destruct (AloneFacts.plan_from_incNum_alone inp
              (List.length (Py.str_of_nat (List.length fileList))) fileList H
              0 init_state) as [Hn [Hv _]].
  rewrite Hn, Hv. cbn [init_state st_incN values_of trace flat_map app].
  split; [reflexivity | lia].
Qed.

Lemma incNum_alone_counts_witness :
  values_of incNum (plan (input "[oFileN]_[incNum]") four_files)
  = map (fun j => padded (List.length (Py.str_of_nat (List.length four_files))) (S j))
        (seq 0 (List.length four_files)) /\
  st_incN (plan (input "[oFileN]_[incNum]") four_files)
  = List.length four_files + 1.
Proof.
  apply (incNum_alone_counts (input "[oFileN]_[incNum]") four_files).
  repeat constructor.
Defined.

(** What the code does for [[incNumInFolder]] when [[incNum]] is not in the
    name of any entry: the value of the first entry is 1, and the value of
    every later entry is 1 when its folder (as the planner computes it)
    differs from the folder of the entry before it, and one more than the
    value of that entry otherwise. *)
Theorem incNumInFolder_alone_counts (inp : planInput) (fileList : list str) :
  Forall (fun fp =>
            Py.contains (tStr incNum) (name_at_counters inp fp) = false /\
            Py.contains (tStr incNumInFolder) (name_at_counters inp fp) = true)
         fileList ->
  exists counts,
    values_of incNumInFolder (plan inp fileList)
    = map (padded (List.length (Py.str_of_nat (List.length fileList)))) counts /\
    List.length counts = List.length fileList /\
    (fileList <> [] -> nth_error counts 0 = Some 1) /\
    forall i f g v,
      nth_error fileList i = Some f -> nth_error fileList (S i) = Some g ->
      nth_error counts i = Some v ->
      1 <= v /\
      nth_error counts (S i)
      = Some (if Py.eqb (folderPath_of g) (folderPath_of f) then v + 1 else 1).
Proof.
  intros H. unfold plan.
  set (pad := List.length (Py.str_of_nat (List.length fileList))). clearbody pad.
  destruct fileList as [|fp rest].
  - exists []. split; [reflexivity|]. split; [reflexivity|]. split; [congruence|].
    intros [|i] x y v Hx; discriminate Hx.
  - inversion H as [|? ? [H1 H2] Hrest]; subst. cbn [plan_from].
    destruct (AloneFacts.plan_from_incNumInFolder_alone inp pad rest Hrest 0
                (entry_step inp pad 0 fp init_state)) as [Hv _].
    destruct (AloneFacts.expand_incNumInFolder_alone inp pad 0 fp init_state H1 H2)
      as [En [Ev _]].
    cbv zeta in En, Ev. cbn [Nat.eqb] in En, Ev.
    rewrite PyFacts.eqb_refl in En, Ev. cbn [init_state st_incN] in En, Ev.
    exists (folder_counts (folderPath_of fp) 1 (map folderPath_of (fp :: rest))).
    split; [|split; [|split]].
    + rewrite Hv. unfold values_of.
      cbn [entry_step st_incN st_prevFolderP trace init_state app flat_map].
      rewrite Ev, En, app_nil_r. cbn [map folder_counts].
      now rewrite PyFacts.eqb_refl.
    + now rewrite AloneFacts.folder_counts_length, length_map.
    + intros _. cbn [map folder_counts nth_error].
      now rewrite PyFacts.eqb_refl.
    + intros i f g v Hf Hg Hc. split.
      * pose proof (AloneFacts.folder_counts_positive
                      (map folderPath_of (fp :: rest)) (folderPath_of fp) 1
                      (Nat.le_refl 1)) as Hpos.
        rewrite Forall_forall in Hpos. apply Hpos. eapply nth_error_In, Hc.
      * apply AloneFacts.folder_counts_next; try assumption.
        -- now rewrite nth_error_map, Hf.
        -- now rewrite nth_error_map, Hg.
Qed.

Lemma incNumInFolder_alone_counts_witness :
  exists counts,
    values_of incNumInFolder (plan (input "[folderN]_[incNumInFolder]") four_files)
    = map (padded (List.length (Py.str_of_nat (List.length four_files)))) counts /\
    List.length counts = List.length four_files /\
    (four_files <> [] -> nth_error counts 0 = Some 1) /\
    forall i f g v,
      nth_error four_files i = Some f -> nth_error four_files (S i) = Some g ->
      nth_error counts i = Some v ->
      1 <= v /\
      nth_error counts (S i)
      = Some (if Py.eqb (folderPath_of g) (folderPath_of f) then v + 1 else 1).
Proof.
  apply (incNumInFolder_alone_counts (input "[folderN]_[incNumInFolder]") four_files).
  repeat constructor.
Defined.

(* ------------------------------------------------------------------ *)
(** ** One counter for two tokens *)

(** C1 on the code.  [[incNum]] and [[incNumInFolder]] are served by the one
    variable [incN]: with both in the template each of them advances it, and
    the reset of [[incNumInFolder]] at a change of folder resets it.  For
    four files in two folders the values substituted for [[incNum]] are
    1, 3, 5, 2 and not 1, 2, 3, 4. *)
Theorem incNum_shares_the_counter :
  values_of incNum (plan (input "[incNum]_[incNumInFolder]") four_files)
    = [$"1"; $"3"; $"5"; $"2"] /\
  nFileList (plan (input "[incNum]_[incNumInFolder]") four_files)
    = [$"/tmp/a/1_2.txt"; $"/tmp/a/3_4.txt"; $"/tmp/b/5_1.txt"; $"/tmp/b/2_3.txt"].
Proof. vm_compute. split; reflexivity. Qed.

(** C4 on the code.  With [[incNum]] in the same template the value
    substituted for [[incNumInFolder]] at the first entry is 2, and within a
    folder it advances by 2: for the same four files the values are
    2, 4, 1, 3 and not 1, 2, 1, 2. *)
Theorem incNumInFolder_shares_the_counter :
  values_of incNumInFolder (plan (input "[incNum]_[incNumInFolder]") four_files)
    = [$"2"; $"4"; $"1"; $"3"] /\
  map folderPath_of four_files = [$"/tmp/a/"; $"/tmp/a/"; $"/tmp/b/"; $"/tmp/b/"].
Proof. vm_compute. split; reflexivity. Qed.

(** The folders that [[incNumInFolder]] compares are the planner's
    [folderPath]s.  Two files that carry the names of their own folders have
    the same [folderPath], so the change of folder between them is not seen
    and the counter is not reset. *)
Example folder_change_not_seen :
  map folderPath_of [$"/t/a.b/a.b"; $"/t/c.d/c.d"] = [$"/t//"; $"/t//"] /\
  map containing_folder [$"/t/a.b/a.b"; $"/t/c.d/c.d"] = [$"/t/a.b/"; $"/t/c.d/"] /\
  values_of incNumInFolder
    (plan (input "[incNumInFolder]") [$"/t/a.b/a.b"; $"/t/c.d/c.d"])
  = [$"1"; $"2"].
Proof. vm_compute. repeat split. Qed.

(* ------------------------------------------------------------------ *)
(** ** The "run" button and the log *)

Module ExecFacts.


Section Loop.
Variable disk : Type.
Variable rename : disk -> str -> str -> option disk.
Variable run_clock : nat -> datetime.




End Loop.

End ExecFacts.




(* ------------------------------------------------------------------ *)
(** ** The folder collector *)

Module CollectFacts.
Import Py PyFacts PathFacts.

Lemma endswith_slash_inv (a : str) :
  endswith ["/"] a = true -> exists q, a = q ++ ["/"].
Proof.
  unfold endswith. intros H. apply startswith_prefix in H as [r Hr].
  exists (rev r). rewrite <- (rev_involutive a), Hr. reflexivity.
Qed.

(** The base name of a joined path is the base name of what was joined. *)
Lemma basename_join (a b : str) : basename (join a b) = basename b.
Proof.
  unfold join. destruct (startswith ["/"] b); [reflexivity|].
  destruct a as [|x a]; [reflexivity|].
  destruct (endswith ["/"] (x :: a)) eqn:E.
  - apply endswith_slash_inv in E as [q ->].
    rewrite <- app_assoc. apply basename_after_slash.
  - apply basename_after_slash.
Qed.

Section Traversal.
Variable fs : fileSystem.

Lemma addFolders_S (fuel : nat) (dp : str) (s : collector) :
  addFolders fs (S fuel) dp s
  = fold_left (child_step fs fuel) (glob fs (join dp $"*")) (Some s).
Proof. reflexivity. Qed.

Lemma fold_child_step_None (fuel : nat) (l : list str) :
  fold_left (child_step fs fuel) l None = None.
Proof. induction l; [reflexivity | assumption]. Qed.

Lemma fold_root_step_None (fuel : nat) (l : list str) :
  fold_left (root_step fs fuel) l None = None.
Proof. induction l; [reflexivity | assumption]. Qed.

(** *** What is appended *)

Section Added.
(** [Q dp q]: [q] may be appended while the folders under [dp] are
    collected. *)
Variable Q : str -> str -> Prop.
Hypothesis Q_child : forall dp c,
  In c (glob fs (join dp $"*")) -> isdir fs c = true -> Q dp c.
Hypothesis Q_below : forall dp c q,
  In c (glob fs (join dp $"*")) -> isdir fs c = true -> Q c q -> Q dp q.

Lemma addFolders_added (fuel : nat) :
  forall dp s s', addFolders fs fuel dp s = Some s' ->
    exists added,
      selectedFolders s' = selectedFolders s ++ added /\
      recursed s' = recursed s ++ added /\
      Forall (Q dp) added.
Proof.
  induction fuel as [|fuel IHf]; intros dp s s' H; [discriminate|].
  rewrite addFolders_S in H.
  assert (Inner : forall l,
             (forall c, In c l -> In c (glob fs (join dp $"*"))) ->
             forall s, fold_left (child_step fs fuel) l (Some s) = Some s' ->
             exists added,
               selectedFolders s' = selectedFolders s ++ added /\
               recursed s' = recursed s ++ added /\
               Forall (Q dp) added);
    [|now apply (Inner (glob fs (join dp $"*")))].
  clear s H.
  intros l. induction l as [|c l IHl]; intros Hl s H.
  - simpl in H. injection H as <-. exists [].
    now rewrite !app_nil_r.
  - cbn [fold_left] in H. unfold child_step at 2 in H.
    destruct (isdir fs c) eqn:Ed.
    + destruct (addFolders fs fuel c (append_folder s c true)) as [s1|] eqn:Ea;
        [|now rewrite fold_child_step_None in H].
      apply IHf in Ea as [a1 [Hs1 [Hr1 Hq1]]].
      apply IHl in H as [a2 [Hs2 [Hr2 Hq2]]]; [|intros; apply Hl; now right].
      exists (c :: a1 ++ a2). cbn [append_folder selectedFolders recursed] in *.
      rewrite Hs2, Hs1, Hr2, Hr1, <- !app_assoc. repeat split.
      constructor; [apply Q_child; [apply Hl; now left | assumption]|].
      apply Forall_app. split; [|assumption].
      eapply Forall_impl; [|exact Hq1]. intros q Hq.
      eapply Q_below; [apply Hl; now left | assumption | exact Hq].
    + apply IHl in H; [exact H | intros; apply Hl; now right].
Qed.

(** The roots are appended in order, each followed by what is collected
    under it. *)
Lemma add_roots_added (fuel : nat) (roots : list str) :
  forall s s', fold_left (root_step fs fuel) roots (Some s) = Some s' ->
    exists added,
      selectedFolders s' = selectedFolders s ++ added /\
      (forall r, In r roots -> In r added) /\
      Forall (fun q => In q roots \/ exists r, In r roots /\ Q r q) added /\
      exists nested,
        recursed s' = recursed s ++ nested /\
        Forall (fun q => exists r, Q r q) nested.
Proof.
  induction roots as [|r roots IH]; intros s s' H.
  - simpl in H. injection H as <-. exists []. rewrite app_nil_r.
    repeat split; [intros r [] | constructor |].
    exists []. now rewrite app_nil_r.
  - cbn [fold_left] in H. unfold root_step at 2 in H.
    destruct (addFolders fs fuel r (append_folder s r false)) as [s1|] eqn:Ea;
      [|now rewrite fold_root_step_None in H].
    apply addFolders_added in Ea as [a1 [Hs1 [Hr1 Hq1]]].
    apply IH in H as [a2 [Hs2 [Hin2 [Hq2 [n2 [Hr2 Hn2]]]]]].
    cbn [append_folder selectedFolders recursed] in *.
    exists (r :: a1 ++ a2). rewrite Hs2, Hs1, <- !app_assoc. repeat split.
    + intros x [<-|Hx]; [now left|]. right. apply in_or_app. right. auto.
    + constructor; [left; now left|]. apply Forall_app. split.
      * eapply Forall_impl; [|exact Hq1]. intros q Hq. right.
        exists r. split; [now left | exact Hq].
      * eapply Forall_impl; [|exact Hq2]. intros q [Hq|[x [Hx Hq]]].
        -- left. now right.
        -- right. exists x. split; [now right | exact Hq].
    + exists (a1 ++ n2). rewrite Hr2, Hr1, <- app_assoc. split; [reflexivity|].
      apply Forall_app. split; [|assumption].
      eapply Forall_impl; [|exact Hq1]. intros q Hq. now exists r.
Qed.
End Added.

(** *** Termination on a file system of finite depth *)

Section Depth.
Variable depth : str -> nat.
Hypothesis depth_decreases : forall dp fp,
  In fp (glob fs (join dp $"*")) -> isdir fs fp = true -> depth fp < depth dp.

Lemma addFolders_total (fuel : nat) :
  forall dp s, depth dp < fuel -> exists s', addFolders fs fuel dp s = Some s'.
Proof.
  induction fuel as [|fuel IHf]; intros dp s Hd; [lia|].
  rewrite addFolders_S.
  assert (Hl : forall c, In c (glob fs (join dp $"*")) ->
                         isdir fs c = true -> depth c < fuel).
  { intros c Hc Hdir. specialize (depth_decreases dp c Hc Hdir). lia. }
  revert s Hl. generalize (glob fs (join dp $"*")).
  intros l. induction l as [|c l IHl]; intros s Hl.
  - now exists s.
  - cbn [fold_left]. unfold child_step at 2.
    destruct (isdir fs c) eqn:Ed.
    + destruct (IHf c (append_folder s c true)) as [s1 ->];
        [apply Hl; [now left | assumption]|].
      apply IHl. intros; apply Hl; [now right | assumption].
    + apply IHl. intros; apply Hl; [now right | assumption].
Qed.

Lemma add_roots_total (fuel : nat) (roots : list str) :
  Forall (fun r => depth r < fuel) roots ->
  forall s, exists s', fold_left (root_step fs fuel) roots (Some s) = Some s'.
Proof.
  induction 1 as [|r roots Hr _ IH]; intros s.
  - now exists s.
  - cbn [fold_left]. unfold root_step at 2.
    destruct (addFolders_total fuel r (append_folder s r false) Hr) as [s1 ->].
    apply IH.
Qed.
End Depth.

End Traversal.

Lemma list_max_bound (l : list nat) : Forall (fun n => n < S (list_max l)) l.
Proof.
  apply Forall_forall. intros n Hn.
  pose proof (proj1 (list_max_le l (list_max l)) (Nat.le_refl _)) as H.
  rewrite Forall_forall in H. specialize (H n Hn). lia.
Qed.

End CollectFacts.

Lemma demo_depth_decreases (dp fp : str) :
  In fp (glob demo_fs (Py.join dp $"*")) -> isdir demo_fs fp = true ->
  demo_depth fp < demo_depth dp.
Proof.
  unfold demo_depth. cbn [glob isdir demo_fs].
  destruct (Py.eqb (Py.join dp $"*") $"/tmp/*").
  - intros [<-|[<-|[]]] H; vm_compute in H |- *; [lia | discriminate].
  - repeat match goal with
           | |- context [if ?b then _ else _] => destruct b
           end;
      simpl; intros H Hd;
      repeat (destruct H as [<-|H]; [vm_compute in Hd; discriminate|]);
      destruct H.
Qed.

(** On a file system of finite depth the collection returns. *)
Lemma selectFolders_returns (fs : fileSystem) (depth : str -> nat)
    (paths : list str) (subFolders_chk : bool) :
  (forall dp fp, In fp (glob fs (Py.join dp $"*")) -> isdir fs fp = true ->
                 depth fp < depth dp) ->
  exists s, selectFolders fs (enough_fuel depth paths) paths subFolders_chk = Some s.
Proof.
  intros Hdepth. unfold selectFolders, enough_fuel.
  destruct subFolders_chk; [|now eexists].
  apply (CollectFacts.add_roots_total fs depth Hdepth).
  pose proof (CollectFacts.list_max_bound (map depth (map strip_root paths))) as H.
  rewrite Forall_map in H. exact H.
Qed.

(* ------------------------------------------------------------------ *)
(** ** Roots that are not folders *)

(** C7, as the code has it.  The collector checks no root: on a file system
    of finite depth the collection returns, and every picked root, with its
    disk name removed, is in the folder set, whether it exists, is a folder,
    or neither; nothing else is returned.  Without "Include sub-folders"
    the folder set is exactly the list of these roots. *)
Theorem roots_are_not_checked (fs : fileSystem) (depth : str -> nat)
    (paths : list str) (subFolders_chk : bool) :
  (forall dp fp, In fp (glob fs (Py.join dp $"*")) -> isdir fs fp = true ->
                 depth fp < depth dp) ->
  exists s,
    selectFolders fs (enough_fuel depth paths) paths subFolders_chk = Some s /\
    (forall r, In r paths -> In (strip_root r) (selectedFolders s)) /\
    (subFolders_chk = false -> selectedFolders s = map strip_root paths).
Proof.
  intros Hdepth. unfold selectFolders, enough_fuel.
  destruct subFolders_chk.
  - unfold add_roots.
    destruct (CollectFacts.add_roots_total fs depth Hdepth
                (S (list_max (map depth (map strip_root paths))))
                (map strip_root paths)) with (s := {| selectedFolders := []; recursed := [] |})
      as [s Hs].
    { pose proof (CollectFacts.list_max_bound (map depth (map strip_root paths))) as H.
      rewrite Forall_map in H. exact H. }
    exists s. split; [exact Hs|]. split; [|discriminate].
    apply (CollectFacts.add_roots_added fs (fun _ _ => True)) in Hs
      as [added [Hsel [Hin _]]]; auto.
    intros r Hr. rewrite Hsel. simpl. apply Hin. now apply in_map.
  - eexists. split; [reflexivity|]. split; [|reflexivity].
    intros r Hr. now apply in_map.
Qed.

Lemma roots_are_not_checked_witness :
  exists s,
    selectFolders demo_fs (enough_fuel demo_depth [$"Macintosh HD/tmp"; $"/nope"])
      [$"Macintosh HD/tmp"; $"/nope"] true = Some s /\
    (forall r, In r [$"Macintosh HD/tmp"; $"/nope"] ->
               In (strip_root r) (selectedFolders s)) /\
    (true = false -> selectedFolders s = map strip_root [$"Macintosh HD/tmp"; $"/nope"]).
Proof.
  apply (roots_are_not_checked demo_fs demo_depth
           [$"Macintosh HD/tmp"; $"/nope"] true).
  exact demo_depth_decreases.
Defined.

(** C7 as stated fails: [/nope] is not a folder, yet it is in the folder
    set, and the collector returns nothing but the folder set. *)
Lemma roots_are_not_checked_counterexample :
  isdir demo_fs $"/nope" = false /\
  glob demo_fs (Py.join $"/nope" $"*") = [] /\
  option_map selectedFolders
    (selectFolders demo_fs 2 [$"Macintosh HD/tmp"; $"/nope"] true)
  = Some [$"/tmp"; $"/tmp/a"; $"/nope"].
Proof. vm_compute. repeat split. Qed.

(* ------------------------------------------------------------------ *)
(** ** Hidden entries *)

(** [glob] on [demo_fs] follows the rule of Python's [glob]: a name with a
    leading dot is matched only by a pattern whose last component has a
    leading dot. *)
Lemma demo_glob_hidden (pat p : str) :
  In p (glob demo_fs pat) -> ishidden (Py.basename pat) = false ->
  ishidden (Py.basename p) = false.
Proof.
  cbn [glob demo_fs].
  destruct (Py.eqb pat $"/tmp/*"); [intros [<-|[<-|[]]] _; reflexivity|].
  destruct (Py.eqb pat $"/tmp/*.*"); [intros [<-|[]] _; reflexivity|].
  destruct (Py.eqb pat $"/tmp/a/*"); [intros [<-|[<-|[]]] _; reflexivity|].
  destruct (Py.eqb pat $"/tmp/a/*.*"); [intros [<-|[<-|[]]] _; reflexivity|].
  destruct (Py.eqb pat $"/tmp/.*") eqn:E; [|intros []].
  apply PyFacts.eqb_eq in E. subst pat. intros _ H. discriminate H.
Qed.

(** C10.  Given the rule of Python's [glob] for names with a leading dot,
    no folder appended by the traversal of the sub-folders, and none that
    the traversal descends into, has a name with a leading dot: a folder in
    the folder set is a selected root or has no such name.  And for a file
    pattern whose last component has no leading dot, as the default [*.*],
    no matched path has a name with a leading dot. *)
Theorem hidden_entries_never_collected (fs : fileSystem) :
  (forall pat p, In p (glob fs pat) -> ishidden (Py.basename pat) = false ->
                 ishidden (Py.basename p) = false) ->
  (forall fuel paths subFolders_chk s,
     selectFolders fs fuel paths subFolders_chk = Some s ->
     Forall (fun p => ishidden (Py.basename p) = false) (recursed s) /\
     Forall (fun p => In p (map strip_root paths) \/
                      ishidden (Py.basename p) = false) (selectedFolders s)) /\
  (forall folders fileForm,
     ishidden (Py.basename fileForm) = false ->
     Forall (fun p => ishidden (Py.basename p) = false)
            (fileList_of fs folders fileForm)).
Proof.
  intros Hglob. split.
  - intros fuel paths chk s. unfold selectFolders. destruct chk.
    + intros H.
      apply (CollectFacts.add_roots_added fs
               (fun _ q => ishidden (Py.basename q) = false)) in H
        as [added [Hsel [_ [Hadded [nested [Hrec Hnested]]]]]].
      * rewrite Hsel, Hrec. simpl. split.
        -- eapply Forall_impl; [|exact Hnested]. now intros q [_ Hq].
        -- eapply Forall_impl; [|exact Hadded].
           intros q [Hq|[_ [_ Hq]]]; [now left | now right].
      * intros dp c Hc _. apply (Hglob _ _ Hc).
        now rewrite CollectFacts.basename_join.
      * auto.
    + intros H. injection H as <-. simpl. split; [constructor|].
      apply Forall_forall. now left.
  - intros folders fileForm Hform. apply Forall_forall. intros p Hp.
    unfold fileList_of in Hp. apply in_flat_map in Hp as [dp [_ Hp]].
    apply (Hglob _ _ Hp). now rewrite CollectFacts.basename_join.
Qed.

Lemma hidden_entries_never_collected_witness :
  Forall (fun p => ishidden (Py.basename p) = false)
         (fileList_of demo_fs [$"/tmp"; $"/tmp/a"] $"*.*") /\
  fileList_of demo_fs [$"/tmp"; $"/tmp/a"] $"*.*"
    = [$"/tmp/f.txt"; $"/tmp/a/x.txt"; $"/tmp/a/y.txt"] /\
  fileList_of demo_fs [$"/tmp"] $".*" = [$"/tmp/.rc"].
Proof.
  split; [|split; reflexivity].
  apply (hidden_entries_never_collected demo_fs demo_glob_hidden).
  reflexivity.
Defined.

(* ------------------------------------------------------------------ *)
(** ** The folder set on a tree *)

Module TreeFacts.
Import Py PyFacts PathFacts CollectFacts.

Lemma at_or_below_tail (c q : str) :
  at_or_below c q <-> exists x, tail_ok x /\ q = c ++ x.
Proof.
  unfold at_or_below, tail_ok. split.
  - intros [->|[r ->]].
    + exists []. split; [now left | now rewrite app_nil_r].
    + exists ("/" :: r). split; [right; now exists r | reflexivity].
  - intros [x [[->|[r ->]] ->]].
    + left. now rewrite app_nil_r.
    + right. now exists r.
Qed.

Lemma startswith_slash_name (n : str) : ~ In "/" n -> startswith ["/"] n = false.
Proof.
  destruct n as [|c n]; [reflexivity|]. intros H. cbn [startswith].
  rewrite ascii_eqb_false; [reflexivity | intros <-; apply H; now left].
Qed.

(** A name is joined to a plain root with a separator. *)
Lemma join_name (r n : str) :
  plain_root r -> ~ In "/" n -> join r n = r ++ "/" :: n.
Proof.
  intros [Hne He] Hn. unfold join. rewrite startswith_slash_name by assumption.
  destruct r as [|x r]; [congruence|]. now rewrite He.
Qed.

(** What [join] puts before a name depends on the folder only. *)
Lemma join_pre (dp n : str) : ~ In "/" n -> join dp n = join dp [] ++ n.
Proof.
  intros Hn. unfold join. rewrite startswith_slash_name by assumption.
  cbn [startswith]. destruct dp as [|x dp]; [reflexivity|].
  destruct (endswith ["/"] (x :: dp)).
  - now rewrite app_nil_r.
  - now rewrite <- app_assoc.
Qed.

(** Two names followed by tails agree when the whole strings do. *)
Lemma name_unique (n : str) :
  forall n' x y, ~ In "/" n -> ~ In "/" n' -> tail_ok x -> tail_ok y ->
    n ++ x = n' ++ y -> n = n'.
Proof.
  induction n as [|a n IH]; intros [|b n'] x y Hn Hn' Hx Hy H; simpl in H.
  - reflexivity.
  - destruct Hx as [->|[r ->]]; [discriminate|].
    injection H as <- _. exfalso. apply Hn'. now left.
  - destruct Hy as [->|[r ->]]; [discriminate|].
    injection H as -> _. exfalso. apply Hn. now left.
  - injection H as -> H. f_equal.
    apply (IH n' x y); try assumption.
    + intros Hin. apply Hn. now right.
    + intros Hin. apply Hn'. now right.
Qed.

(** A path is at or below at most one entry of a folder. *)
Lemma sibling_unique (dp n n' q : str) :
  ~ In "/" n -> ~ In "/" n' ->
  at_or_below (join dp n) q -> at_or_below (join dp n') q -> n = n'.
Proof.
  intros Hn Hn' H H'.
  apply at_or_below_tail in H as [x [Hx ->]].
  apply at_or_below_tail in H' as [y [Hy H']].
  rewrite (join_pre dp n), (join_pre dp n'), <- !app_assoc in H' by assumption.
  apply app_inv_head in H'.
  now apply (name_unique n n' x y).
Qed.

(** An entry of a folder is a plain root for what lies below it. *)
Lemma child_plain (dp n : str) :
  n <> [] -> ~ In "/" n -> plain_root (join dp n).
Proof.
  intros Hne Hn. rewrite join_pre by assumption. split.
  - destruct n; [congruence|]. now destruct (join dp []).
  - destruct (exists_last Hne) as [m [a ->]].
    unfold endswith. rewrite app_assoc, rev_app_distr. cbn [rev app startswith].
    rewrite ascii_eqb_false; [reflexivity|].
    intros <-. apply Hn. apply in_or_app. right. now left.
Qed.

(** The paths strictly below a plain root. *)
Lemma below_form (r q : str) :
  plain_root r ->
  (strictly_below r q <->
   exists n x, n <> [] /\ ~ In "/" n /\ tail_ok x /\ q = r ++ "/" :: n ++ x).
Proof.
  intros Hr. unfold strictly_below. split.
  - intros [n [Hne [Hn H]]]. apply at_or_below_tail in H as [x [Hx ->]].
    exists n, x. rewrite join_name by assumption.
    rewrite <- app_assoc. repeat split; assumption.
  - intros [n [x [Hne [Hn [Hx ->]]]]]. exists n. repeat split; try assumption.
    apply at_or_below_tail. exists x. split; [assumption|].
    rewrite join_name by assumption. now rewrite <- app_assoc.
Qed.

Lemma below_at (r q : str) :
  plain_root r -> strictly_below r q -> exists y, q = r ++ "/" :: y.
Proof.
  intros Hr H. apply below_form in H as [n [x [_ [_ [_ ->]]]]]; [|assumption].
  now exists (n ++ x).
Qed.

Lemma not_below_self (r : str) : plain_root r -> ~ strictly_below r r.
Proof.
  intros Hr H. apply below_at in H as [y H]; [|assumption].
  apply (f_equal (@List.length ascii)) in H. rewrite length_app in H.
  simpl in H. lia.
Qed.

(** What lies strictly below an entry of a folder lies strictly below the
    folder. *)
Lemma below_child (dp n q : str) :
  n <> [] -> ~ In "/" n -> strictly_below (join dp n) q -> strictly_below dp q.
Proof.
  intros Hne Hn H. apply below_at in H as [y ->]; [|now apply child_plain].
  exists n. repeat split; try assumption. right. now exists y.
Qed.

(** A name in front of a tail is a prefix of what precedes a separator. *)
Lemma prefix_name (n : str) :
  forall x l w, ~ In "/" n -> tail_ok x -> n ++ x = l ++ "/" :: w ->
    exists z, tail_ok z /\ l = n ++ z.
Proof.
  induction n as [|a n IH]; intros x l w Hn Hx H; simpl in H.
  - exists l. split; [|reflexivity].
    destruct l as [|b l]; [now left|]. right.
    destruct Hx as [->|[r ->]]; [discriminate|].
    injection H as <- _. now exists l.
  - destruct l as [|b l]; simpl in H.
    + injection H as -> _. exfalso. apply Hn. now left.
    + injection H as <- H.
      destruct (IH x l w) as [z [Hz ->]]; try assumption.
      * intros Hin. apply Hn. now right.
      * now exists z.
Qed.

Lemma common_descendant_aux (r1 r2 l n1 x1 n2 x2 : str) :
  plain_root r2 -> n2 <> [] -> ~ In "/" n2 -> tail_ok x2 ->
  r1 = r2 ++ l -> "/" :: n2 ++ x2 = l ++ "/" :: n1 ++ x1 ->
  r1 = r2 \/ strictly_below r2 r1.
Proof.
  intros Hr2 Hne Hn Hx -> H.
  destruct l as [|a l]; [left; now rewrite app_nil_r|]. right.
  simpl in H. injection H as <- H.
  destruct (prefix_name n2 x2 l (n1 ++ x1) Hn Hx H) as [z [Hz ->]].
  apply below_form; [assumption|]. now exists n2, z.
Qed.

(** Two plain roots with a common path strictly below both are the same or
    one lies strictly below the other. *)
Lemma common_descendant (r1 r2 q : str) :
  plain_root r1 -> plain_root r2 ->
  strictly_below r1 q -> strictly_below r2 q ->
  r1 = r2 \/ strictly_below r1 r2 \/ strictly_below r2 r1.
Proof.
  intros Hr1 Hr2 H1 H2.
  apply below_form in H1 as [n1 [x1 [Hne1 [Hn1 [Hx1 ->]]]]]; [|assumption].
  apply below_form in H2 as [n2 [x2 [Hne2 [Hn2 [Hx2 H]]]]]; [|assumption].
  apply app_eq_app in H as [l [[Hl Hr]|[Hl Hr]]].
  - destruct (common_descendant_aux r1 r2 l n1 x1 n2 x2) as [E|E]; auto.
  - destruct (common_descendant_aux r2 r1 l n2 x2 n1 x1) as [E|E]; auto.
Qed.

Section Tree.
Variable fs : fileSystem.
Hypothesis dirs_ok : forall d, isdir fs d = true -> listing_ok fs d.

(** The folders collected under a folder are pairwise distinct and lie
    strictly below it. *)
Lemma addFolders_tree (fuel : nat) :
  forall dp s s', listing_ok fs dp -> addFolders fs fuel dp s = Some s' ->
    exists added,
      selectedFolders s' = selectedFolders s ++ added /\
      NoDup added /\ Forall (strictly_below dp) added.
Proof.
  induction fuel as [|fuel IHf]; intros dp s s' [Hnd Hch] H; [discriminate|].
  rewrite addFolders_S in H.
  assert (Inner : forall l, NoDup l ->
             (forall c, In c l -> isdir fs c = true ->
                exists n, n <> [] /\ ~ In "/" n /\ c = join dp n) ->
             forall s, fold_left (child_step fs fuel) l (Some s) = Some s' ->
             exists added,
               selectedFolders s' = selectedFolders s ++ added /\
               NoDup added /\
               Forall (fun q => exists c, In c l /\ isdir fs c = true /\
                                          at_or_below c q) added).
  { clear s H Hnd Hch.
    intros l. induction l as [|c l IHl]; intros Hnd Hch s H.
    - simpl in H. injection H as <-. exists []. rewrite app_nil_r.
      repeat constructor.
    - cbn [fold_left] in H. unfold child_step at 2 in H.
      inversion Hnd as [|? ? Hc Hnd']; subst.
      assert (Hch' : forall c', In c' l -> isdir fs c' = true ->
                exists n, n <> [] /\ ~ In "/" n /\ c' = join dp n)
        by (intros; apply Hch; [now right | assumption]).
      destruct (isdir fs c) eqn:Ed.
      + destruct (addFolders fs fuel c (append_folder s c true)) as [s1|] eqn:Ea;
          [|now rewrite fold_child_step_None in H].
        apply IHf in Ea as [a1 [Hs1 [Hn1 Hb1]]]; [|now apply dirs_ok].
        apply (IHl Hnd' Hch') in H as [a2 [Hs2 [Hn2 Hb2]]].
        destruct (Hch c (or_introl eq_refl) Ed) as [n [Hne [Hn Ec]]].
        assert (Hplain : plain_root c) by (rewrite Ec; now apply child_plain).
        assert (Hsib : forall q, at_or_below c q ->
                  ~ exists c', In c' l /\ isdir fs c' = true /\ at_or_below c' q).
        { intros q Hq [c' [Hin [Hd' Hq']]].
          destruct (Hch' c' Hin Hd') as [n' [_ [Hn' Ec']]].
          rewrite Ec in Hq. rewrite Ec' in Hq'.
          assert (n = n') by now apply (sibling_unique dp n n' q).
          apply Hc. congruence. }
        assert (Hin1 : forall q, In q a1 -> at_or_below c q /\ q <> c).
        { intros q Hq. rewrite Forall_forall in Hb1. specialize (Hb1 q Hq).
          split.
          - apply below_at in Hb1 as [y ->]; [|assumption]. right. now exists y.
          - intros ->. now apply (not_below_self c). }
        exists (c :: a1 ++ a2). cbn [append_folder selectedFolders] in *.
        rewrite Hs2, Hs1, <- !app_assoc. split; [reflexivity|]. split.
        * constructor.
          -- intros Hin. apply in_app_or in Hin as [Hin|Hin].
             ++ now apply Hin1 in Hin.
             ++ rewrite Forall_forall in Hb2. apply (Hsib c); [now left | auto].
          -- apply NoDup_app; try assumption.
             intros q Hq1 Hq2. apply Hin1 in Hq1 as [Hq1 _].
             rewrite Forall_forall in Hb2. apply (Hsib q Hq1). auto.
        * constructor; [exists c; repeat split; [now left | assumption | now left]|].
          apply Forall_app. split.
          -- apply Forall_forall. intros q Hq. exists c.
             repeat split; [now left | assumption | now apply Hin1].
          -- eapply Forall_impl; [|exact Hb2].
             intros q [c' [Hin [Hd' Hq']]]. exists c'.
             repeat split; [now right | assumption | assumption].
      + apply (IHl Hnd' Hch') in H as [a2 [Hs2 [Hn2 Hb2]]].
        exists a2. repeat split; try assumption.
        eapply Forall_impl; [|exact Hb2].
        intros q [c' [Hin [Hd' Hq']]]. exists c'.
        repeat split; [now right | assumption | assumption]. }
  destruct (Inner _ Hnd Hch s H) as [added [Hs [Hn Hb]]].
  exists added. repeat split; try assumption.
  eapply Forall_impl; [|exact Hb].
  intros q [c [Hin [Hd Hq]]].
  destruct (Hch c Hin Hd) as [n [Hne [Hnn ->]]]. now exists n.
Qed.

(** The folder set of plain, pairwise distinct roots none of which lies
    strictly below another has no duplicates. *)
Lemma add_roots_tree (fuel : nat) (roots : list str) :
  NoDup roots ->
  (forall r, In r roots -> listing_ok fs r /\ plain_root r) ->
  (forall r1 r2, In r1 roots -> In r2 roots -> ~ strictly_below r1 r2) ->
  forall s s', fold_left (root_step fs fuel) roots (Some s) = Some s' ->
    exists added,
      selectedFolders s' = selectedFolders s ++ added /\
      NoDup added /\
      Forall (fun q => exists r, In r roots /\ (q = r \/ strictly_below r q)) added.
Proof.
  induction roots as [|r roots IH]; intros Hnd Hok Hnest s s' H.
  - simpl in H. injection H as <-. exists []. rewrite app_nil_r.
    repeat constructor.
  - cbn [fold_left] in H. unfold root_step at 2 in H.
    inversion Hnd as [|? ? Hr Hnd']; subst.
    destruct (addFolders fs fuel r (append_folder s r false)) as [s1|] eqn:Ea;
      [|now rewrite fold_root_step_None in H].
    destruct (Hok r (or_introl eq_refl)) as [Hlist Hplain].
    apply addFolders_tree in Ea as [a1 [Hs1 [Hn1 Hb1]]]; [|assumption].
    apply IH in H as [a2 [Hs2 [Hn2 Hb2]]]; try assumption.
    2: { intros; apply Hok; now right. }
    2: { intros; apply Hnest; now right. }
    rewrite Forall_forall in Hb1, Hb2.
    exists (r :: a1 ++ a2). cbn [append_folder selectedFolders] in *.
    rewrite Hs2, Hs1, <- !app_assoc. split; [reflexivity|]. split.
    + constructor.
      * intros Hin. apply in_app_or in Hin as [Hin|Hin].
        -- apply (Hnest r r); [now left | now left | auto].
        -- destruct (Hb2 r Hin) as [r' [Hr' [E|E]]].
           ++ subst r'. contradiction.
           ++ apply (Hnest r' r); [now right | now left | assumption].
      * apply NoDup_app; try assumption.
        intros q Hq1 Hq2. specialize (Hb1 q Hq1).
        destruct (Hb2 q Hq2) as [r' [Hr' [E|E]]].
        -- subst q. apply (Hnest r r'); [now left | now right | assumption].
        -- destruct (common_descendant r r' q) as [E'|[E'|E']]; try assumption.
           ++ apply Hok. now right.
           ++ subst r'. contradiction.
           ++ apply (Hnest r r'); [now left | now right | assumption].
           ++ apply (Hnest r' r); [now right | now left | assumption].
    + constructor; [exists r; split; [now left | now left]|].
      apply Forall_app. split; apply Forall_forall; intros q Hq.
      * exists r. split; [now left | right; auto].
      * destruct (Hb2 q Hq) as [r' [Hr' E]]. exists r'. split; [now right | exact E].
Qed.

End Tree.

End TreeFacts.

(* ------------------------------------------------------------------ *)
(** ** Duplicates in the folder set *)

Lemma demo_listing_ok (d : str) : isdir demo_fs d = true -> listing_ok demo_fs d.
Proof.
  cbn [isdir demo_fs]. intros H. apply orb_true_iff in H as [H|H];
    apply PyFacts.eqb_eq in H; subst d; split.
  - repeat constructor; simpl; intuition discriminate.
  - intros c [<-|[<-|[]]] Hd; [|discriminate Hd].
    exists $"a". repeat split; [discriminate | simpl; intuition discriminate].
  - repeat constructor; simpl; intuition discriminate.
  - intros c [<-|[<-|[]]] Hd; discriminate Hd.
Qed.

(** C6, as the code has it.  The collector removes no duplicate.  On a file
    system of finite depth the collection returns, and the folder set has no
    duplicates when the picked roots, with their disk names removed, are
    pairwise distinct and, with "Include sub-folders", are written without a
    separator at their end, none of them lies strictly below another, and
    the listings of the roots and of the folders are those of a tree. *)
Theorem folder_set_without_duplicates (fs : fileSystem) (depth : str -> nat)
    (paths : list str) (subFolders_chk : bool) :
  (forall dp fp, In fp (glob fs (Py.join dp $"*")) -> isdir fs fp = true ->
                 depth fp < depth dp) ->
  NoDup (map strip_root paths) ->
  (subFolders_chk = true ->
     (forall d, isdir fs d = true -> listing_ok fs d) /\
     (forall r, In r (map strip_root paths) -> listing_ok fs r /\ plain_root r) /\
     (forall r1 r2, In r1 (map strip_root paths) -> In r2 (map strip_root paths) ->
                    ~ strictly_below r1 r2)) ->
  exists s,
    selectFolders fs (enough_fuel depth paths) paths subFolders_chk = Some s /\
    NoDup (selectedFolders s).
Proof.
  intros Hdepth Hnd Htree.
  destruct (selectFolders_returns fs depth paths subFolders_chk Hdepth)
    as [s Hs].
  exists s. split; [exact Hs|].
  unfold selectFolders in Hs. destruct subFolders_chk.
  - destruct (Htree eq_refl) as [Hdirs [Hroots Hnest]].
    apply (TreeFacts.add_roots_tree fs Hdirs) in Hs as [added [Hsel [Hn _]]];
      try assumption.
    now rewrite Hsel.
  - injection Hs as <-. exact Hnd.
Qed.

Lemma folder_set_without_duplicates_witness :
  exists s,
    selectFolders demo_fs (enough_fuel demo_depth [$"Macintosh HD/tmp"])
      [$"Macintosh HD/tmp"] true = Some s /\
    NoDup (selectedFolders s).
Proof.
  apply (folder_set_without_duplicates demo_fs demo_depth [$"Macintosh HD/tmp"] true).
  - exact demo_depth_decreases.
  - repeat constructor. simpl. tauto.
  - intros _. split; [exact demo_listing_ok|]. split.
    + intros r [<-|[]]. split.
      * apply demo_listing_ok. reflexivity.
      * split; [discriminate | reflexivity].
    + intros r1 r2 [<-|[]] [<-|[]]. apply TreeFacts.not_below_self.
      split; [discriminate | reflexivity].
Defined.

(** C6 as stated fails: with "Include sub-folders", selecting a folder and
    one of its sub-folders puts the sub-folder into the folder set twice. *)
Lemma folder_set_counterexample :
  option_map selectedFolders
    (selectFolders demo_fs 2 [$"/tmp"; $"/tmp/a"] true)
  = Some [$"/tmp"; $"/tmp/a"; $"/tmp/a"] /\
  ~ NoDup [$"/tmp"; $"/tmp/a"; $"/tmp/a"].
Proof.
  split; [vm_compute; reflexivity|].
  intros H. inversion H as [|? ? _ H']; subst.
  inversion H' as [|? ? Hin _]; subst. apply Hin. now left.
Qed.

(* ------------------------------------------------------------------ *)
(** ** More on the planner: names that the template fixes *)

Module MorePlanFacts.
Import Py PyFacts PathFacts.

Lemma Forall2_nth {A B : Type} (P : A -> B -> Prop) (l : list A) (l' : list B) :
  Forall2 P l l' ->
  forall i a, nth_error l i = Some a ->
    exists b, nth_error l' i = Some b /\ P a b.
Proof.
  induction 1 as [|x y l l' Hxy _ IH]; intros [|i] a Ha; simpl in Ha;
    try discriminate.
  - injection Ha as <-. now exists y.
  - now apply IH.
Qed.

Lemma Forall2_right {A B : Type} (P : B -> Prop) (l : list A) (l' : list B) :
  Forall2 (fun _ b => P b) l l' -> Forall P l'.
Proof. induction 1; constructor; assumption. Qed.

(** A string that occurs in another brings its first character. *)
Lemma contains_head (c : ascii) (x s : str) :
  contains (c :: x) s = true -> In c s.
Proof.
  induction s as [|a s IH]; cbn [contains]; [discriminate|].
  intros H. apply orb_true_iff in H as [H|H].
  - cbn [startswith] in H. apply andb_true_iff in H as [H _].
    apply Ascii.eqb_eq in H. subst. now left.
  - right. now apply IH.
Qed.

Lemma no_bracket_no_token (k : token) (s : str) :
  ~ In "[" s -> contains (tStr k) s = false.
Proof.
  intros H. destruct (contains (tStr k) s) eqn:E; [|reflexivity].
  unfold tStr in E. now apply contains_head in E.
Qed.

(** The inner loop over tokens none of which is in the name. *)
Lemma fold_tokens_absent (c : entryCtx) (ks : list token) (e : expansion) :
  (forall k, In k ks -> contains (tStr k) (newFN e) = false) ->
  fold_left (token_step c) ks e = e.
Proof.
  induction ks as [|k ks IH]; intros H; [reflexivity|]. cbn [fold_left].
  rewrite CounterFacts.token_step_absent by (apply H; now left).
  apply IH. intros k' Hk'. apply H. now right.
Qed.

(** [a/b] splits into the segments of [a] followed by those of [b]. *)
Lemma split_app (sep : ascii) (a b : str) :
  split sep (a ++ sep :: b) = split sep a ++ split sep b.
Proof.
  induction a as [|c a IH]; simpl.
  - now rewrite Ascii.eqb_refl.
  - destruct (Ascii.eqb c sep); [now rewrite IH|].
    rewrite IH. destruct (split sep a) as [|s0 ss] eqn:E;
      [now apply split_not_nil in E | reflexivity].
Qed.

Lemma join_nil_last (ov : str) : List.last (join ov []) "/" = "/".
Proof.
  unfold join. cbn [startswith]. destruct ov as [|x ov]; [reflexivity|].
  destruct (endswith ["/"] (x :: ov)) eqn:E.
  - apply CollectFacts.endswith_slash_inv in E as [q ->].
    now rewrite app_nil_r, last_last.
  - now rewrite last_last.
Qed.

End MorePlanFacts.

(** A template that contains the bracket form of no token is the new name of
    every entry: each destination is the folder joined with the template, a
    dot and the entry's extension.  So two entries with the same planner
    folder and the same extension are planned onto one and the same
    destination. *)
Theorem literal_template_collides (inp : planInput) (fileList : list str) :
  (forall k, Py.contains (tStr k) (newForm inp) = false) ->
  Forall2 (fun fp np => np = newFP_of inp fp (newForm inp))
          fileList (nFileList (plan inp fileList)) /\
  forall i j fp1 fp2,
    nth_error fileList i = Some fp1 -> nth_error fileList j = Some fp2 ->
    folderPath_of fp1 = folderPath_of fp2 -> oFExt_of fp1 = oFExt_of fp2 ->
    nth_error (nFileList (plan inp fileList)) i
    = nth_error (nFileList (plan inp fileList)) j.
Proof.
  intros Hlit.
  assert (Hall : Forall2 (fun fp np => np = newFP_of inp fp (newForm inp))
                   fileList (nFileList (plan inp fileList))).
  { eapply Forall2_impl; [|apply PlanFacts.plan_shape]. simpl.
    intros fp np [pad [j [s ->]]]. unfold expand.
    rewrite MorePlanFacts.fold_tokens_absent; [reflexivity|].
    intros k _. apply Hlit. }
  split; [exact Hall|].
  intros i j fp1 fp2 H1 H2 Hf He.
  destruct (MorePlanFacts.Forall2_nth _ _ _ Hall i fp1 H1) as [n1 [-> ->]].
  destruct (MorePlanFacts.Forall2_nth _ _ _ Hall j fp2 H2) as [n2 [-> ->]].
  unfold newFP_of. now rewrite Hf, He.
Qed.

Lemma literal_template_collides_witness :
  nth_error (nFileList (plan (input "photo") [$"/tmp/a/x.txt"; $"/tmp/a/y.txt"])) 0
  = nth_error (nFileList (plan (input "photo") [$"/tmp/a/x.txt"; $"/tmp/a/y.txt"])) 1.
Proof.
  apply (proj2 (literal_template_collides (input "photo")
                  [$"/tmp/a/x.txt"; $"/tmp/a/y.txt"]
                  (fun k => match k with
                            | oFileN | folderN | incNum | incNumInFolder | ts => eq_refl
                            end))
           0 1 $"/tmp/a/x.txt" $"/tmp/a/y.txt");
    reflexivity.
Defined.

(** With the template [[oFileN]], which is the template the program starts
    with, and no destination override, an entry [name.ext] with one dot, no
    ['['] in [name], and a base name that occurs only at the end of its path
    is planned onto its own path. *)
Theorem default_template_keeps_paths (clk : nat -> datetime) (fileList : list str) :
  Forall2 (fun fp np =>
             forall name ext,
               bn_of fp = name ++ "." :: ext ->
               ~ In "." name -> ~ In "." ext -> ~ In "[" name ->
               name_only_at_end fp -> np = fp)
          fileList
          (nFileList (plan {| newForm := tStr oFileN; folder2moveRenFile := [];
                              clock := clk |} fileList)).
Proof.
  eapply Forall2_impl; [|apply PlanFacts.plan_shape]. simpl.
  intros fp np [pad [j [s ->]]] name ext Hbn Hn He Hb Hend.
  assert (HoFN : oFN_of fp = name).
  { unfold oFN_of. rewrite Hbn. now rewrite PyFacts.split_first_sep. }
  assert (HoExt : oFExt_of fp = ext).
  { unfold oFExt_of. rewrite Hbn. now apply PyFacts.last_split_app. }
  set (inp := {| newForm := tStr oFileN; folder2moveRenFile := []; clock := clk |}).
  assert (Hexp : newFN (expand inp pad j fp s) = name).
  { unfold expand, newFFO.
    assert (Hcons : forall f (x : token) l (a : expansion),
               fold_left f (x :: l) a = fold_left f l (f a x)) by reflexivity.
    rewrite Hcons.
    set (c := ctx_of inp pad j fp s).
    assert (E1 : token_step c
                   {| newFN := newForm inp; incN := st_incN s; substituted := [] |}
                   oFileN
                 = {| newFN := name; incN := st_incN s;
                      substituted := [(oFileN, name)] |}).
    { unfold token_step. cbn [newFN newForm inp incN substituted].
      change (Py.contains (tStr oFileN) (tStr oFileN)) with true.
      cbn [negb is_incNum c ctx_of oFN]. rewrite HoFN.
      cbn. now rewrite app_nil_r. }
    rewrite E1. rewrite MorePlanFacts.fold_tokens_absent; [reflexivity|].
    intros k _. now apply MorePlanFacts.no_bracket_no_token. }
  rewrite Hexp. unfold newFP_of. cbn [folder2moveRenFile inp Py.eqb negb].
  rewrite (FolderFacts.folderPath_of_containing_folder fp Hend), HoExt, <- Hbn.
  rewrite PathFacts.join_folder.
  - apply PathFacts.folder_then_basename.
  - apply PathFacts.containing_folder_last.
  - apply PathFacts.basename_no_slash.
Qed.

Example default_template_keeps_paths_example :
  nFileList (plan (input "[oFileN]") four_files) = four_files.
Proof. vm_compute. reflexivity. Qed.

(** With a destination override and a template without ['/'], every
    destination lies directly in the override folder: its containing folder
    is the override, with a separator at its end. *)
Theorem override_folder_holds_all (inp : planInput) (fileList : list str) :
  folder2moveRenFile inp <> [] ->
  ~ In "/" (newForm inp) ->
  Forall (fun np => containing_folder np = Py.join (folder2moveRenFile inp) [])
         (nFileList (plan inp fileList)).
Proof.
  intros Hov Htmpl.
  apply (MorePlanFacts.Forall2_right _ fileList).
  eapply Forall2_impl; [|apply PlanFacts.plan_shape]. simpl.
  intros fp np [pad [j [s ->]]]. unfold newFP_of.
  assert (E : Py.eqb (folder2moveRenFile inp) [] = false)
    by now apply PyFacts.eqb_neq.
  rewrite E. cbn [negb].
  assert (Hfile : ~ In "/" (newFN (expand inp pad j fp s) ++ "." :: oFExt_of fp)).
  { intros H. apply in_app_or in H as [H|[H|H]].
    - now apply CharFacts.expand_no_slash in H.
    - discriminate.
    - now apply PlanFacts.oFExt_no_slash in H. }
  rewrite TreeFacts.join_pre by assumption.
  apply PathFacts.containing_folder_app; [apply MorePlanFacts.join_nil_last | assumption].
Qed.

Lemma override_folder_holds_all_witness :
  Forall (fun np => containing_folder np = $"/out/")
         (nFileList (plan (input_to "[oFileN]_[incNum]" "/out") four_files)).
Proof.
  apply (override_folder_holds_all (input_to "[oFileN]_[incNum]" "/out") four_files).
  - discriminate.
  - vm_compute. intuition discriminate.
Defined.

(** The replacement of [[folderN]] is the name of the folder that holds the
    entry: for an entry whose base name occurs only at the end of its path
    and whose containing folder ends with the component [n], it is [n]; for
    a folder path made of separators only, as the root, it is empty. *)
Theorem folderN_is_the_folder_name (fp q n : str) :
  name_only_at_end fp ->
  containing_folder fp = q ++ n ++ ["/"] ->
  List.last q "/" = "/" -> n <> [] -> ~ In "/" n ->
  folderName (folderPath_of fp) = n /\
  forall d, (forall c, In c d -> c = "/") -> folderName d = [].
Proof.
  intros Hend Hdir Hq Hne Hn. split.
  - rewrite (FolderFacts.folderPath_of_containing_folder fp Hend), Hdir.
    unfold folderName.
    assert (Hfn : filter (fun seg => negb (Py.eqb seg [])) (Py.split "/" (n ++ ["/"]))
                  = [n]).
    { rewrite MorePlanFacts.split_app, PyFacts.split_no_sep by assumption.
      cbn [Py.split app filter Py.eqb negb].
      destruct n; [congruence | reflexivity]. }
    destruct q as [|x q'] eqn:Eq.
    + cbn [app]. rewrite Hfn. reflexivity.
    + assert (Hx : x :: q' <> []) by discriminate.
      destruct (exists_last Hx) as [q0 [c Ec]]. rewrite Ec in Hq |- *.
      rewrite last_last in Hq. subst c.
      rewrite <- app_assoc. cbn [app].
      rewrite MorePlanFacts.split_app, filter_app, Hfn.
      unfold Py.last.
      change ([] :: ?a ++ [n]) with (([] : str) :: a ++ [n]).
      rewrite app_comm_cons. apply last_last.
  - intros d Hd. unfold folderName.
    assert (H : filter (fun seg => negb (Py.eqb seg [])) (Py.split "/" d) = []).
    { induction d as [|c d IH]; [reflexivity|].
      rewrite (Hd c (or_introl eq_refl)). cbn [Py.split].
      rewrite Ascii.eqb_refl. cbn [filter Py.eqb negb].
      apply IH. intros x Hx. apply Hd. now right. }
    now rewrite H.
Qed.

Lemma folderN_is_the_folder_name_witness :
  folderName (folderPath_of $"/tmp/a/x.txt") = $"a" /\
  forall d, (forall c, In c d -> c = "/") -> folderName d = [].
Proof.
  apply (folderN_is_the_folder_name $"/tmp/a/x.txt" $"/tmp/" $"a").
  - reflexivity.
  - reflexivity.
  - reflexivity.
  - discriminate.
  - simpl. intuition discriminate.
Defined.

(* ------------------------------------------------------------------ *)
(** ** The width of numbers *)

#[local] Set Warnings "-abstract-large-number".

Module WidthFacts.
Import Py PyFacts DigitFacts.

Lemma string_of_uint_length (d : Decimal.uint) :
  List.length (list_ascii_of_string (DecimalString.NilEmpty.string_of_uint d))
  = Decimal.nb_digits d.
Proof. induction d; simpl; congruence. Qed.

Lemma nb_digits_revapp (d : Decimal.uint) :
  forall acc, Decimal.nb_digits (Decimal.revapp d acc)
              = Decimal.nb_digits d + Decimal.nb_digits acc.
Proof.
  induction d; intros acc; simpl; try reflexivity; rewrite IHd; simpl; lia.
Qed.

Lemma nb_digits_succ (d : Decimal.uint) :
  Decimal.nb_digits d <= Decimal.nb_digits (Decimal.Little.succ d).
Proof. induction d; simpl; lia. Qed.

Lemma to_little_uint_succ (n : nat) :
  forall acc, Nat.to_little_uint n (Decimal.Little.succ acc)
              = Decimal.Little.succ (Nat.to_little_uint n acc).
Proof. induction n as [|n IH]; intros acc; simpl; [reflexivity | apply IH]. Qed.

Lemma str_of_nat_length (n : nat) :
  List.length (str_of_nat n)
  = Decimal.nb_digits (Nat.to_little_uint n Decimal.zero).
Proof.
  unfold str_of_nat, Nat.to_uint, Decimal.rev.
  rewrite string_of_uint_length, nb_digits_revapp. simpl. lia.
Qed.

(** [str] of a number is not longer than [str] of a larger one. *)
Lemma str_of_nat_length_mono (n m : nat) :
  n <= m -> List.length (str_of_nat n) <= List.length (str_of_nat m).
Proof.
  induction 1 as [|m _ IH]; [lia|].
  rewrite (str_of_nat_length (S m)).
  change (Nat.to_little_uint (S m) Decimal.zero)
    with (Nat.to_little_uint m (Decimal.Little.succ Decimal.zero)).
  rewrite to_little_uint_succ.
  pose proof (nb_digits_succ (Nat.to_little_uint m Decimal.zero)).
  rewrite (str_of_nat_length m) in IH. lia.
Qed.

(** A number that fits the width is padded to exactly the width. *)
Lemma padded_length (pad n : nat) :
  List.length (str_of_nat n) <= pad -> List.length (padded pad n) = pad.
Proof.
  intros H. unfold padded, zfill. rewrite length_app, repeat_length. lia.
Qed.

Lemma fmt_i_length (digits v bound : nat) :
  v <= bound -> List.length (str_of_nat bound) = digits ->
  List.length (fmt_i digits v) = digits.
Proof.
  intros Hv Hb. apply padded_length. rewrite <- Hb.
  now apply str_of_nat_length_mono.
Qed.

Lemma fmt_i_digits (digits v : nat) :
  Forall (fun c => In c $"0123456789") (fmt_i digits v).
Proof. apply Forall_forall. intros c. apply padded_digits. Qed.

(** The numbers of [folder_counts] grow by at most one per entry. *)
Lemma folder_counts_bound (folders : list str) :
  forall prev n, 1 <= n ->
    Forall (fun v => v <= n + List.length folders - 1) (folder_counts prev n folders).
Proof.
  induction folders as [|f folders IH]; intros prev n Hn; cbn [folder_counts];
    constructor.
  - simpl. destruct (eqb f prev); lia.
  - eapply Forall_impl; [|apply IH; lia]. simpl. intros v Hv.
    destruct (eqb f prev); lia.
Qed.

End WidthFacts.

(** For a year of at most four digits and month, day, hour, minute and
    second of at most two, the timestamp reads [YYYY_MM_DD_HH_MM_SS]: six
    groups of digits of the lengths 4, 2, 2, 2, 2 and 2 with an underscore
    between them, nineteen characters in all. *)
Theorem get_time_stamp_format (t : datetime) :
  year t <= 9999 -> month t <= 99 -> day t <= 99 ->
  hour t <= 99 -> minute t <= 99 -> second t <= 99 ->
  exists Y M D h m s,
    get_time_stamp t
    = Y ++ "_" :: M ++ "_" :: D ++ "_" :: h ++ "_" :: m ++ "_" :: s /\
    map (@List.length ascii) [Y; M; D; h; m; s] = [4; 2; 2; 2; 2; 2] /\
    Forall (Forall (fun c => In c $"0123456789")) [Y; M; D; h; m; s] /\
    List.length (get_time_stamp t) = 19.
Proof.
  intros Hy HM HD Hh Hm Hs.
  exists (fmt_i 4 (year t)), (fmt_i 2 (month t)), (fmt_i 2 (day t)),
         (fmt_i 2 (hour t)), (fmt_i 2 (minute t)), (fmt_i 2 (second t)).
  pose proof (WidthFacts.fmt_i_length 4 (year t) 9999 Hy eq_refl) as LY.
  pose proof (WidthFacts.fmt_i_length 2 (month t) 99 HM eq_refl) as LM.
  pose proof (WidthFacts.fmt_i_length 2 (day t) 99 HD eq_refl) as LD.
  pose proof (WidthFacts.fmt_i_length 2 (hour t) 99 Hh eq_refl) as Lh.
  pose proof (WidthFacts.fmt_i_length 2 (minute t) 99 Hm eq_refl) as Lm.
  pose proof (WidthFacts.fmt_i_length 2 (second t) 99 Hs eq_refl) as Ls.
  split; [reflexivity|]. split; [|split].
  - cbn [map]. now rewrite LY, LM, LD, Lh, Lm, Ls.
  - repeat constructor; apply WidthFacts.fmt_i_digits.
  - unfold get_time_stamp.
    repeat (rewrite length_app; cbn [List.length]).
    rewrite LY, LM, LD, Lh, Lm, Ls. reflexivity.
Qed.

Lemma get_time_stamp_format_witness :
  exists Y M D h m s,
    get_time_stamp epoch
    = Y ++ "_" :: M ++ "_" :: D ++ "_" :: h ++ "_" :: m ++ "_" :: s /\
    map (@List.length ascii) [Y; M; D; h; m; s] = [4; 2; 2; 2; 2; 2] /\
    Forall (Forall (fun c => In c $"0123456789")) [Y; M; D; h; m; s] /\
    List.length (get_time_stamp epoch) = 19.
Proof.
  apply (get_time_stamp_format epoch); vm_compute; repeat constructor.
Defined.

(** The purpose of the zero padding: when [[incNum]] is in the name of every
    entry and [[incNumInFolder]] in none, all the values substituted for
    [[incNum]] have the same length, the length of [str(N)] for the N
    entries. *)
Theorem incNum_values_same_width (inp : planInput) (fileList : list str) :
  Forall (fun fp =>
            Py.contains (tStr incNum) (name_at_counters inp fp) = true /\
            Py.contains (tStr incNumInFolder) (name_at_counters inp fp) = false)
         fileList ->
  Forall (fun v => List.length v = List.length (Py.str_of_nat (List.length fileList)))
         (values_of incNum (plan inp fileList)).
Proof.
  intros H. unfold plan.
  destruct (AloneFacts.plan_from_incNum_alone inp
              (List.length (Py.str_of_nat (List.length fileList))) fileList H
              0 init_state) as [_ [Hv _]].
  rewrite Hv. cbn [init_state st_incN values_of trace flat_map app].
  apply Forall_forall. intros v Hin. apply in_map_iff in Hin as [j [<- Hj]].
  apply in_seq in Hj. apply WidthFacts.padded_length.
  apply WidthFacts.str_of_nat_length_mono. lia.
Qed.

Lemma incNum_values_same_width_witness :
  Forall (fun v => List.length v = List.length (Py.str_of_nat (List.length four_files)))
         (values_of incNum (plan (input "[incNum]-[oFileN]") four_files)).
Proof.
  apply (incNum_values_same_width (input "[incNum]-[oFileN]") four_files).
  repeat constructor.
Defined.

(** The same for [[incNumInFolder]] when [[incNum]] is in no name: no value
    exceeds the number of entries, so all have the length of [str(N)]. *)
Theorem incNumInFolder_values_same_width (inp : planInput) (fileList : list str) :
  Forall (fun fp =>
            Py.contains (tStr incNum) (name_at_counters inp fp) = false /\
            Py.contains (tStr incNumInFolder) (name_at_counters inp fp) = true)
         fileList ->
  Forall (fun v => List.length v = List.length (Py.str_of_nat (List.length fileList)))
         (values_of incNumInFolder (plan inp fileList)).
Proof.
  intros H. unfold plan.
  set (pad := List.length (Py.str_of_nat (List.length fileList))).
  assert (Hpad : pad = List.length (Py.str_of_nat (List.length fileList))) by reflexivity.
  clearbody pad.
  destruct fileList as [|fp rest]; [constructor|].
  inversion H as [|? ? [H1 H2] Hrest]; subst x l. cbn [plan_from].
  destruct (AloneFacts.plan_from_incNumInFolder_alone inp pad rest Hrest 0
              (entry_step inp pad 0 fp init_state)) as [Hv _].
  destruct (AloneFacts.expand_incNumInFolder_alone inp pad 0 fp init_state H1 H2)
    as [En [Ev _]].
  cbv zeta in En, Ev. cbn [Nat.eqb] in En, Ev.
  rewrite PyFacts.eqb_refl in En, Ev. cbn [init_state st_incN] in En, Ev.
  rewrite Hv. unfold values_of.
  cbn [entry_step st_incN st_prevFolderP trace init_state app flat_map].
  rewrite Ev, En, app_nil_r.
  assert (Hfit : forall v, v <= List.length (fp :: rest) ->
                   List.length (padded pad v) = pad).
  { intros v Hle. apply WidthFacts.padded_length. rewrite Hpad.
    now apply WidthFacts.str_of_nat_length_mono. }
  constructor; [apply Hfit; simpl; lia|].
  apply Forall_forall. intros v Hin. apply in_map_iff in Hin as [c [<- Hc]].
  apply Hfit.
  pose proof (WidthFacts.folder_counts_bound (map folderPath_of rest)
                (folderPath_of fp) (1 + 1) ltac:(lia)) as Hb.
  rewrite Forall_forall in Hb. specialize (Hb c Hc).
  rewrite length_map in Hb. simpl. lia.
Qed.

Lemma incNumInFolder_values_same_width_witness :
  Forall (fun v => List.length v = List.length (Py.str_of_nat (List.length four_files)))
         (values_of incNumInFolder (plan (input "[folderN]_[incNumInFolder]") four_files)).
Proof.
  apply (incNumInFolder_values_same_width (input "[folderN]_[incNumInFolder]") four_files).
  repeat constructor.
Defined.

(* ------------------------------------------------------------------ *)
(** ** More on the collector: order and completeness *)

Module OrderFacts.
Import Py PyFacts CollectFacts.

Lemma parents_first_nil (fs : fileSystem) (base : list str) :
  parents_first fs base [].
Proof. intros a1 q a2 H. destruct a1; discriminate. Qed.

Lemma parents_first_cons (fs : fileSystem) (base : list str) (p c : str)
    (l : list str) :
  In p base -> child fs p c -> parents_first fs (base ++ [c]) l ->
  parents_first fs base (c :: l).
Proof.
  intros Hp Hc Hl a1 q a2 E. destruct a1 as [|x a1]; simpl in E.
  - injection E as <- <-. exists p. rewrite app_nil_r. now split.
  - injection E as <- ->. destruct (Hl a1 q a2 eq_refl) as [p' [Hin Hch]].
    exists p'. split; [|assumption]. now rewrite <- app_assoc in Hin.
Qed.

Lemma parents_first_app (fs : fileSystem) (base l1 l2 : list str) :
  parents_first fs base l1 -> parents_first fs (base ++ l1) l2 ->
  parents_first fs base (l1 ++ l2).
Proof.
  intros H1 H2 a1 q a2 E.
  apply app_eq_app in E as [m [[E1 E2]|[E1 E2]]].
  - destruct m as [|x m]; simpl in E2.
    + rewrite app_nil_r in E1. subst l1 l2.
      destruct (H2 [] q a2 eq_refl) as [p [Hin Hch]].
      exists p. split; [|assumption]. now rewrite app_nil_r in Hin.
    + injection E2 as <- ->.
      destruct (H1 a1 q m E1) as [p [Hin Hch]]. now exists p.
  - subst a1. destruct (H2 m q a2 E2) as [p [Hin Hch]].
    exists p. split; [|assumption]. now rewrite app_assoc.
Qed.

Lemma parents_first_mono (fs : fileSystem) (base base' l : list str) :
  (forall x, In x base -> In x base') ->
  parents_first fs base l -> parents_first fs base' l.
Proof.
  intros Hsub H a1 q a2 E. destruct (H a1 q a2 E) as [p [Hin Hch]].
  exists p. split; [|assumption].
  apply in_app_or in Hin as [Hin|Hin]; apply in_or_app; [left; auto | now right].
Qed.

Section Order.
Variable fs : fileSystem.

(** What [addFolders(dp)] appends comes parents first, [dp] being the
    first parent. *)
Lemma addFolders_parents_first (fuel : nat) :
  forall dp s s', addFolders fs fuel dp s = Some s' ->
    exists added,
      selectedFolders s' = selectedFolders s ++ added /\
      parents_first fs [dp] added.
Proof.
  induction fuel as [|fuel IHf]; intros dp s s' H; [discriminate|].
  rewrite addFolders_S in H.
  assert (Inner : forall l,
             (forall c, In c l -> In c (glob fs (join dp $"*"))) ->
             forall s, fold_left (child_step fs fuel) l (Some s) = Some s' ->
               exists added,
                 selectedFolders s' = selectedFolders s ++ added /\
                 parents_first fs [dp] added);
    [|now apply (Inner (glob fs (join dp $"*")))].
  clear s H.
  intros l. induction l as [|c l IHl]; intros Hl s H.
  - simpl in H. injection H as <-. exists []. rewrite app_nil_r.
    split; [reflexivity | apply parents_first_nil].
  - cbn [fold_left] in H. unfold child_step at 2 in H.
    assert (Hl' : forall c', In c' l -> In c' (glob fs (join dp $"*")))
      by (intros; apply Hl; now right).
    destruct (isdir fs c) eqn:Ed.
    + destruct (addFolders fs fuel c (append_folder s c true)) as [s1|] eqn:Ea;
        [|now rewrite fold_child_step_None in H].
      apply IHf in Ea as [a1 [Hs1 Hp1]].
      cbn [append_folder selectedFolders] in Hs1.
      apply (IHl Hl') in H as [a2 [Hs2 Hp2]].
      exists (c :: a1 ++ a2). split.
      * rewrite Hs2, Hs1, <- !app_assoc. reflexivity.
      * apply (parents_first_cons fs _ dp); [now left | |].
        -- split; [apply Hl; now left | assumption].
        -- apply parents_first_app.
           ++ apply (parents_first_mono fs [c]); [|assumption].
              intros x [<-|[]]. right. now left.
           ++ apply (parents_first_mono fs [dp]); [|assumption].
              intros x [<-|[]]. now left.
    + now apply (IHl Hl').
Qed.

(** What [addFolders] appends holds every folder listed in [dp] and in a
    folder that it appended. *)
Lemma addFolders_closed (fuel : nat) :
  forall dp s s', addFolders fs fuel dp s = Some s' ->
    exists added,
      selectedFolders s' = selectedFolders s ++ added /\
      (forall c, child fs dp c -> In c added) /\
      (forall p c, In p added -> child fs p c -> In c added).
Proof.
  induction fuel as [|fuel IHf]; intros dp s s' H; [discriminate|].
  rewrite addFolders_S in H.
  assert (Inner : forall l s,
             fold_left (child_step fs fuel) l (Some s) = Some s' ->
             exists added,
               selectedFolders s' = selectedFolders s ++ added /\
               (forall c, In c l -> isdir fs c = true -> In c added) /\
               (forall p c, In p added -> child fs p c -> In c added)).
  { clear s H. intros l. induction l as [|c l IHl]; intros s H.
    - simpl in H. injection H as <-. exists []. rewrite app_nil_r.
      repeat split; [intros c [] | intros p c []].
    - cbn [fold_left] in H. unfold child_step at 2 in H.
      destruct (isdir fs c) eqn:Ed.
      + destruct (addFolders fs fuel c (append_folder s c true)) as [s1|] eqn:Ea;
          [|now rewrite fold_child_step_None in H].
        apply IHf in Ea as [a1 [Hs1 [Hc1 Hcl1]]].
        apply IHl in H as [a2 [Hs2 [Hc2 Hcl2]]].
        cbn [append_folder selectedFolders] in Hs1.
        exists (c :: a1 ++ a2). split; [|split].
        * rewrite Hs2, Hs1, <- !app_assoc. reflexivity.
        * intros x [<-|Hx] Hd; [now left|]. right. apply in_or_app. right. auto.
        * intros p x [<-|Hp] Hch; right; apply in_or_app.
          -- left. auto.
          -- apply in_app_or in Hp as [Hp|Hp]; [left | right]; eauto.
      + apply IHl in H as [a2 [Hs2 [Hc2 Hcl2]]].
        exists a2. split; [assumption|]. split; [|assumption].
        intros x [<-|Hx] Hd; [congruence | auto]. }
  destruct (Inner _ s H) as [added [Hs [Hc Hcl]]].
  exists added. split; [assumption|]. split; [|assumption].
  intros c [Hin Hd]. auto.
Qed.

Lemma add_roots_order (fuel : nat) (roots : list str) :
  forall s s', fold_left (root_step fs fuel) roots (Some s) = Some s' ->
    exists added,
      selectedFolders s' = selectedFolders s ++ added /\
      (forall a1 q a2, added = a1 ++ q :: a2 ->
         In q roots \/ exists p, In p a1 /\ child fs p q) /\
      (forall p c, In p added -> child fs p c -> In c added).
Proof.
  induction roots as [|r roots IH]; intros s s' H.
  - simpl in H. injection H as <-. exists []. rewrite app_nil_r.
    repeat split; [intros [|? ?] q a2 E; discriminate | intros p c []].
  - cbn [fold_left] in H. unfold root_step at 2 in H.
    destruct (addFolders fs fuel r (append_folder s r false)) as [s1|] eqn:Ea;
      [|now rewrite fold_root_step_None in H].
    pose proof Ea as Eb.
    apply addFolders_parents_first in Ea as [a1 [Hs1 Hp1]].
    apply addFolders_closed in Eb as [a1' [Hs1' [Hc1 Hcl1]]].
    assert (a1' = a1) by (rewrite Hs1 in Hs1'; now apply app_inv_head in Hs1').
    subst a1'.
    cbn [append_folder selectedFolders] in Hs1.
    apply IH in H as [a2 [Hs2 [Ho2 Hcl2]]].
    exists (r :: a1 ++ a2). split; [|split].
    + rewrite Hs2, Hs1, <- !app_assoc. reflexivity.
    + intros b1 q b2 E. destruct b1 as [|x b1]; simpl in E.
      * injection E as <- _. left. now left.
      * injection E as <- E.
        apply app_eq_app in E as [m [[E1 E2]|[E1 E2]]].
        -- destruct m as [|y m]; simpl in E2.
           ++ rewrite app_nil_r in E1. subst a1 a2.
              destruct (Ho2 [] q b2 eq_refl) as [Hq|[p [[] _]]].
              left. now right.
           ++ injection E2 as <- ->.
              destruct (Hp1 b1 q m E1) as [p [Hin Hch]].
              right. exists p. split; [exact Hin | assumption].
        -- subst b1. destruct (Ho2 m q b2 E2) as [Hq|[p [Hin Hch]]].
           ++ left. now right.
           ++ right. exists p. split; [|assumption].
              right. apply in_or_app. now right.
    + intros p c [<-|Hp] Hch; right; apply in_or_app.
      * left. auto.
      * apply in_app_or in Hp as [Hp|Hp]; [left | right]; eauto.
Qed.

End Order.

End OrderFacts.

(** With "Include sub-folders", on a file system of finite depth, the
    folder set comes parents first: every path in it is a selected root or a
    folder listed in a path that stands before it in the folder set (only
    folders are appended, each after the folder it was found in). *)
Theorem folder_set_parents_first (fs : fileSystem) (depth : str -> nat)
    (paths : list str) :
  (forall dp fp, In fp (glob fs (Py.join dp $"*")) -> isdir fs fp = true ->
                 depth fp < depth dp) ->
  exists s,
    selectFolders fs (enough_fuel depth paths) paths true = Some s /\
    forall a1 q a2, selectedFolders s = a1 ++ q :: a2 ->
      In q (map strip_root paths) \/ exists p, In p a1 /\ child fs p q.
Proof.
  intros Hdepth.
  destruct (selectFolders_returns fs depth paths true Hdepth) as [s Hs].
  exists s. split; [exact Hs|].
  unfold selectFolders, add_roots in Hs.
  apply OrderFacts.add_roots_order in Hs as [added [Hsel [Hord _]]].
  simpl in Hsel. rewrite Hsel. exact Hord.
Qed.

Lemma folder_set_parents_first_witness :
  exists s,
    selectFolders demo_fs (enough_fuel demo_depth [$"Macintosh HD/tmp"])
      [$"Macintosh HD/tmp"] true = Some s /\
    forall a1 q a2, selectedFolders s = a1 ++ q :: a2 ->
      In q (map strip_root [$"Macintosh HD/tmp"]) \/
      exists p, In p a1 /\ child demo_fs p q.
Proof.
  apply (folder_set_parents_first demo_fs demo_depth [$"Macintosh HD/tmp"]).
  exact demo_depth_decreases.
Defined.

(** With "Include sub-folders", on a file system of finite depth, the
    folder set is complete: with a path it holds every folder that [glob]
    lists in that path, so every folder that can be reached from a selected
    root is searched. *)
Theorem folder_set_complete (fs : fileSystem) (depth : str -> nat)
    (paths : list str) :
  (forall dp fp, In fp (glob fs (Py.join dp $"*")) -> isdir fs fp = true ->
                 depth fp < depth dp) ->
  exists s,
    selectFolders fs (enough_fuel depth paths) paths true = Some s /\
    forall p c, In p (selectedFolders s) -> child fs p c ->
                In c (selectedFolders s).
Proof.
  intros Hdepth.
  destruct (selectFolders_returns fs depth paths true Hdepth) as [s Hs].
  exists s. split; [exact Hs|].
  unfold selectFolders, add_roots in Hs.
  apply OrderFacts.add_roots_order in Hs as [added [Hsel [_ Hcl]]].
  simpl in Hsel. rewrite Hsel. exact Hcl.
Qed.

Lemma folder_set_complete_witness :
  exists s,
    selectFolders demo_fs (enough_fuel demo_depth [$"Macintosh HD/tmp"])
      [$"Macintosh HD/tmp"] true = Some s /\
    forall p c, In p (selectedFolders s) -> child demo_fs p c ->
                In c (selectedFolders s).
Proof.
  apply (folder_set_complete demo_fs demo_depth [$"Macintosh HD/tmp"]).
  exact demo_depth_decreases.
Defined.

(** The removal of the disk name: a path without ['/'] is left as it is; of
    a path with ['/'] what stands before the first ['/'] is cut off, so that
    the result starts with ['/']; and a second removal changes nothing. *)
Theorem strip_root_normalizes (fp : str) :
  (~ In "/" fp -> strip_root fp = fp) /\
  (In "/" fp ->
     exists disk, fp = disk ++ strip_root fp /\ ~ In "/" disk /\
                  Py.startswith ["/"] (strip_root fp) = true) /\
  strip_root (strip_root fp) = strip_root fp.
Proof.
  assert (Hcut : forall p, In "/" p ->
            exists disk, p = disk ++ from_first_slash p /\ ~ In "/" disk /\
                         Py.startswith ["/"] (from_first_slash p) = true).
  { induction p as [|c p IH]; intros H; [destruct H|]. cbn [from_first_slash].
    destruct (Ascii.eqb c "/") eqn:E.
    - exists []. apply Ascii.eqb_eq in E. subst c. repeat split. tauto.
    - destruct H as [->|H]; [now rewrite Ascii.eqb_refl in E|].
      destruct (IH H) as [disk [Hp [Hd Hs]]].
      exists (c :: disk). split; [simpl; now rewrite <- Hp|]. split; [|assumption].
      intros [->|Hin]; [now rewrite Ascii.eqb_refl in E | tauto]. }
  assert (Hno : forall p, ~ In "/" p -> strip_root p = p).
  { intros p H. unfold strip_root.
    now rewrite (proj2 (PyFacts.existsb_eqb_false "/" p) H). }
  assert (Hyes : forall p, In "/" p -> strip_root p = from_first_slash p).
  { intros p H. unfold strip_root.
    now rewrite (proj2 (PyFacts.existsb_eqb_true "/" p) H). }
  split; [apply Hno|]. split.
  - intros H. rewrite (Hyes fp H). now apply Hcut.
  - destruct (in_dec ascii_dec "/" fp) as [H|H].
    + rewrite (Hyes fp H). destruct (Hcut fp H) as [disk [_ [_ Hs]]].
      destruct (from_first_slash fp) as [|c r] eqn:E; [discriminate|].
      cbn [Py.startswith] in Hs. apply andb_true_iff in Hs as [Hc _].
      apply Ascii.eqb_eq in Hc. subst c.
      unfold strip_root. cbn [existsb from_first_slash].
      now rewrite Ascii.eqb_refl.
    + now rewrite !(Hno fp H).
Qed.

(* ------------------------------------------------------------------ *)
(** ** More on the "run" button: plans made by [updateFileList] *)

Module MoreExecFacts.

Section Loop.
Variable disk : Type.
Variable rename : disk -> str -> str -> option disk.
Variable run_clock : nat -> datetime.



End Loop.


End MoreExecFacts.



(** When the pattern matches nothing in any selected folder, both lists of
    [updateFileList] are empty, and the "run" button renames nothing and
    leaves the content of the log file as it is. *)
Theorem no_match_no_change
    (disk : Type) (rename : disk -> str -> str -> option disk)
    (run_clock : nat -> datetime)
    (fs : fileSystem) (folders : list str) (fileForm : str) (inp : planInput)
    (d : disk) (old : str) :
  (forall dp, In dp folders -> glob fs (Py.join dp fileForm) = []) ->
  updateFileList fs folders fileForm inp = ([], []) /\
  run disk rename run_clock {| files := d; log := Some old |} [] []
  = ({| files := d; log := Some old |}, Some ($"Renamed files -----" ++ [nl; nl])).
Proof.
  intros Hnone. split.
  - unfold updateFileList.
    assert (E : fileList_of fs folders fileForm = []).
    { unfold fileList_of. induction folders as [|dp folders' IH]; [reflexivity|].
      cbn [flat_map]. rewrite (Hnone dp (or_introl eq_refl)). cbn [app].
      apply IH. intros x Hx. apply Hnone. now right. }
    now rewrite E.
  - unfold run. cbn [run_loop files log writeFile]. now rewrite app_nil_r.
Qed.

Lemma no_match_no_change_witness :
  updateFileList demo_fs [$"/tmp"; $"/tmp/a"] $"*.jpg" (input "[oFileN]") = ([], []) /\
  run (list str) demo_rename (fun _ => epoch)
      {| files := [$"/tmp/f.txt"]; log := Some logHeader |} [] []
  = ({| files := [$"/tmp/f.txt"]; log := Some logHeader |},
     Some ($"Renamed files -----" ++ [nl; nl])).
Proof.
  apply (no_match_no_change (list str) demo_rename (fun _ => epoch) demo_fs
           [$"/tmp"; $"/tmp/a"] $"*.jpg" (input "[oFileN]")).
  intros dp [<-|[<-|[]]]; reflexivity.
Defined.



(* ------------------------------------------------------------------ *)
(** ** The frame and its handlers *)

Module FrameFacts.
Import Py PyFacts.

Lemma lstrip_nonspace (c : ascii) (s : str) :
  PyMore.isspace c = false -> PyMore.lstrip (c :: s) = c :: s.
Proof. intros H. cbn [PyMore.lstrip]. now rewrite H. Qed.

(** A bracketed key is what [strip] and [split(',')[0]] get back from the
    string in the choice list. *)
Lemma option_string_parsed (key d : str) :
  ~ In "," key ->
  PyMore.strip (first (split "," (("[" :: key ++ ["]"]) ++ $", " ++ d)))
  = "[" :: key ++ ["]"].
Proof.
  intros Hk.
  change ($", " ++ d) with ("," :: " " :: d).
  rewrite split_first_sep.
  - cbn [first hd]. unfold PyMore.strip.
    rewrite lstrip_nonspace by reflexivity.
    change ("[" :: key ++ ["]"]) with (["["] ++ key ++ ["]"]).
    rewrite !rev_app_distr. cbn [rev app].
    rewrite lstrip_nonspace by reflexivity.
    cbn [rev]. rewrite rev_app_distr, rev_involutive. reflexivity.
  - intros [H|H]; [discriminate|].
    apply in_app_or in H as [H|[H|[]]]; [tauto | discriminate].
Qed.

Lemma key_no_comma (k : token) : ~ In "," (key k).
Proof. destruct k; simpl; intuition discriminate. Qed.

Lemma updateFileList_lengths (fs : fileSystem) (clk : nat -> datetime) (st : frame) :
  List.length (self_nFileList (frame_updateFileList fs clk st))
  = List.length (self_fileList (frame_updateFileList fs clk st)).
Proof.
  unfold frame_updateFileList, updateFileList. cbn [self_nFileList self_fileList fst snd].
  apply PlanFacts.plan_length.
Qed.

(** Every destination of a plan with a destination override and a template
    without ['/'] lies directly in the override folder. *)
Lemma override_destinations (inp : planInput) (fileList : list str) :
  folder2moveRenFile inp <> [] ->
  ~ In "/" (newForm inp) ->
  Forall (fun np => containing_folder np = join (folder2moveRenFile inp) [])
         (nFileList (plan inp fileList)).
Proof.
  intros Hov Htmpl.
  apply (MorePlanFacts.Forall2_right _ fileList).
  eapply Forall2_impl; [|apply PlanFacts.plan_shape]. simpl.
  intros fp np [pad [j [s ->]]]. unfold newFP_of.
  assert (E : eqb (folder2moveRenFile inp) [] = false) by now apply eqb_neq.
  rewrite E. cbn [negb].
  assert (Hfile : ~ In "/" (newFN (expand inp pad j fp s) ++ "." :: oFExt_of fp)).
  { intros H. apply in_app_or in H as [H|[H|H]].
    - now apply CharFacts.expand_no_slash in H.
    - discriminate.
    - now apply PlanFacts.oFExt_no_slash in H. }
  rewrite TreeFacts.join_pre by assumption.
  apply PathFacts.containing_folder_app; [apply MorePlanFacts.join_nil_last | assumption].
Qed.

End FrameFacts.

(** Choosing a token in the choice list appends its bracket form to the
    template and plans anew: the string in the list is the bracket form, a
    comma and the description, and [onChoice] gets the bracket form back
    from it.  Choosing the empty first entry changes nothing. *)
Theorem choice_appends_the_token (fs : fileSystem) (clk : nat -> datetime)
    (st : frame) (k : token) :
  In (option_string k) choices /\
  onChoice fs clk st (option_string k)
  = frame_updateFileList fs clk (set_newFN_txt st (newFN_txt st ++ tStr k)) /\
  hd [] choices = [] /\
  onChoice fs clk st [] = st.
Proof.
  split; [right; apply in_map; destruct k; simpl; tauto|].
  split; [|split; reflexivity].
  unfold onChoice.
  assert (E : Py.eqb (option_string k) [] = false) by now destruct k.
  rewrite E. unfold option_string, tStr.
  rewrite FrameFacts.option_string_parsed by apply FrameFacts.key_no_comma.
  reflexivity.
Qed.

(** After a run that ended normally the lists of the frame are empty and the
    two text controls show [*.*] and [[oFileN]] again, while the destination
    folder stays as it was; a second press of "run" then renames nothing:
    it leaves the disk, the log and the frame as they are. *)
Theorem second_run_is_idle
    (disk : Type) (rename : disk -> str -> str -> option disk)
    (run_clock : nat -> datetime) (w w1 : world disk) (st st1 : frame) (msg : str) :
  on_run disk rename run_clock w st = (w1, st1, Some msg) ->
  self_selectedFolders st1 = [] /\ self_fileList st1 = [] /\
  self_nFileList st1 = [] /\
  targetFN_txt st1 = $"*.*" /\ newFN_txt st1 = tStr oFileN /\
  self_folder2moveRenFile st1 = self_folder2moveRenFile st /\
  forall clock2,
    on_run disk rename clock2 w1 st1
    = (w1, st1, Some ($"Renamed files -----" ++ [nl; nl])).
Proof.
  unfold on_run, run. intros H.
  destruct (run_loop disk rename run_clock (files w) 0 (self_fileList st)
              (self_nFileList st) _ []) as [d [[m r]|]] eqn:E;
    [|discriminate].
  injection H as <- <- _. repeat split.
  intros clock2. cbn [initList self_fileList self_nFileList run_loop files log].
  destruct (log w) as [old|]; cbn [writeFile]; now rewrite app_nil_r.
Qed.

Lemma second_run_is_idle_witness :
  on_run (list str) demo_rename (fun _ => epoch)
    (fst (fst (on_run (list str) demo_rename (fun _ => epoch) demo_world
                 (set_newFN_txt init_frame $"x"))))
    (snd (fst (on_run (list str) demo_rename (fun _ => epoch) demo_world
                 (set_newFN_txt init_frame $"x"))))
  = (fst (fst (on_run (list str) demo_rename (fun _ => epoch) demo_world
                 (set_newFN_txt init_frame $"x"))),
     snd (fst (on_run (list str) demo_rename (fun _ => epoch) demo_world
                 (set_newFN_txt init_frame $"x"))),
     Some ($"Renamed files -----" ++ [nl; nl])).
Proof.
  apply (second_run_is_idle (list str) demo_rename (fun _ => epoch) demo_world
           _ (set_newFN_txt init_frame $"x") _
           ($"Renamed files -----" ++ [nl; nl]) eq_refl).
Defined.

(** Taking the mark off "Move renamed files to a folder" empties the
    destination folder and its text control but does not plan anew: the
    destinations in the frame are still those planned for the folder chosen
    before, all of them directly in that folder, which is where a press of
    "run" puts the files.  Only the next [updateFileList] plans without the
    folder. *)
Theorem unchecking_keeps_the_old_plan (fs : fileSystem) (clk clk' : nat -> datetime)
    (st : frame) (d : str) :
  d <> [] -> ~ In "/" (newFN_txt st) ->
  let st1 := on_selFolder2move fs clk st (Some d) in
  let st2 := onCheckBox st1 false in
  self_folder2moveRenFile st2 = [] /\ selFolder2move_txt st2 = [] /\
  self_fileList st2 = self_fileList st1 /\
  self_nFileList st2 = self_nFileList st1 /\
  Forall (fun np => containing_folder np = Py.join d []) (self_nFileList st2) /\
  self_nFileList (onEnteredInTC fs clk' st2 $"newFN_txt")
  = nFileList (plan {| newForm := newFN_txt st; folder2moveRenFile := [];
                       clock := clk' |}
                 (fileList_of fs (self_selectedFolders st) (targetFN_txt st))).
Proof.
  intros Hd Htmpl st1 st2. repeat split.
  cbn [st2 st1 onCheckBox on_selFolder2move frame_updateFileList self_nFileList
       updateFileList snd frame_input self_selectedFolders targetFN_txt newFN_txt
       self_folder2moveRenFile].
  apply (FrameFacts.override_destinations
           {| newForm := newFN_txt st; folder2moveRenFile := d; clock := clk |});
    assumption.
Qed.

Lemma unchecking_keeps_the_old_plan_witness :
  self_folder2moveRenFile (onCheckBox (on_selFolder2move demo_fs (fun _ => epoch) demo_frame (Some $"/out")) false) = [] /\
  selFolder2move_txt (onCheckBox (on_selFolder2move demo_fs (fun _ => epoch) demo_frame (Some $"/out")) false) = [] /\
  self_fileList (onCheckBox (on_selFolder2move demo_fs (fun _ => epoch) demo_frame (Some $"/out")) false) = self_fileList (on_selFolder2move demo_fs (fun _ => epoch) demo_frame (Some $"/out")) /\
  self_nFileList (onCheckBox (on_selFolder2move demo_fs (fun _ => epoch) demo_frame (Some $"/out")) false) = self_nFileList (on_selFolder2move demo_fs (fun _ => epoch) demo_frame (Some $"/out")) /\
  Forall (fun np => containing_folder np = Py.join $"/out" [])
         (self_nFileList (onCheckBox (on_selFolder2move demo_fs (fun _ => epoch) demo_frame (Some $"/out")) false)) /\
  self_nFileList (onEnteredInTC demo_fs (fun _ => epoch) (onCheckBox (on_selFolder2move demo_fs (fun _ => epoch) demo_frame (Some $"/out")) false) $"newFN_txt")
  = nFileList (plan {| newForm := newFN_txt demo_frame; folder2moveRenFile := [];
                       clock := fun _ => epoch |}
                 (fileList_of demo_fs (self_selectedFolders demo_frame)
                    (targetFN_txt demo_frame))).
Proof.
  apply (unchecking_keeps_the_old_plan demo_fs (fun _ => epoch) (fun _ => epoch)
           demo_frame $"/out").
  - discriminate.
  - vm_compute. intuition discriminate.
Defined.

Example unchecking_keeps_the_old_plan_example :
  self_nFileList
    (onCheckBox (on_selFolder2move demo_fs (fun _ => epoch) demo_frame (Some $"/out"))
       false)
  = [$"/out/x.txt"; $"/out/y.txt"] /\
  self_nFileList
    (onEnteredInTC demo_fs (fun _ => epoch)
       (onCheckBox (on_selFolder2move demo_fs (fun _ => epoch) demo_frame (Some $"/out"))
          false) $"newFN_txt")
  = [$"/tmp/a/x.txt"; $"/tmp/a/y.txt"].
Proof. vm_compute. split; reflexivity. Qed.

(** In every frame that can be reached from the one [__init__] leaves, by the
    handlers and by the user's edits in any order, the two lists
    [self.fileList] and [self.nFileList] have the same length: the loop of
    the "run" button finds a destination [self.nFileList[i]] for every
    file. *)
Theorem lists_stay_aligned (fs : fileSystem) (st : frame) :
  reachable fs st ->
  List.length (self_nFileList st) = List.length (self_fileList st).
Proof.
  induction 1 as [|st st' _ IH Hstep]; [reflexivity|].
  destruct Hstep as
    [clk fuel st dlg st' Hsel | clk st dlg | st checked | clk st chosen
     | clk st objName | disk rename run_clock w st | st v | st v | st b].
  - unfold on_selectFolders in Hsel. destruct dlg as [paths|].
    + destruct (selectFolders fs fuel paths (subFolders_chk st)); [|discriminate].
      injection Hsel as <-. apply FrameFacts.updateFileList_lengths.
    + now injection Hsel as <-.
  - destruct dlg as [d|]; [apply FrameFacts.updateFileList_lengths | exact IH].
  - destruct checked; exact IH.
  - unfold onChoice. destruct (Py.eqb chosen []); [exact IH|].
    apply FrameFacts.updateFileList_lengths.
  - unfold onEnteredInTC.
    destruct (Py.eqb objName $"targetFN_txt" || Py.eqb objName $"newFN_txt");
      [apply FrameFacts.updateFileList_lengths | exact IH].
  - unfold on_run.
    destruct (run disk rename run_clock w (self_fileList st) (self_nFileList st))
      as [w' [m|]]; [reflexivity | exact IH].
  - exact IH.
  - exact IH.
  - exact IH.
Qed.

Lemma lists_stay_aligned_witness :
  List.length (self_nFileList
                 (onChoice demo_fs (fun _ => epoch)
                    (set_targetFN_txt init_frame $"*") (option_string ts)))
  = List.length (self_fileList
                   (onChoice demo_fs (fun _ => epoch)
                      (set_targetFN_txt init_frame $"*") (option_string ts))).
Proof.
  apply (lists_stay_aligned demo_fs).
  eapply reach_step; [|apply step_onChoice].
  eapply reach_step; [apply reach_init | apply step_type_targetFN].
Defined.

(* ------------------------------------------------------------------ *)
(** ** The fonts *)

Module FontFacts.



End FontFacts.


(** The fonts of the frame: [getWXFonts(initFontSz=8, numFonts=3)] on macOS. *)
Example frame_fonts :
  map (fun f => (pointSize f, faceName f))
      (getWXFonts $"darwin" 8 3 2 [])
  = [(8%Z, $"Monaco"); (10%Z, $"Monaco"); (12%Z, $"Monaco")].
Proof. reflexivity. Qed.
